(** * huji-chat: the request/response protocol engine, verified

    A shallow embedding of the wire parser ([Parsers.cpp]), the response
    serializer ([Common.cpp]) and the connection session handler
    ([Server.cpp]), followed by the properties the specification states
    about them.

    Conventions.
    - [std::string] is [string]; a [char] is an [ascii].
    - [size_t] is a 64-bit unsigned integer, modelled in [N] with the
      wrap-around written out where the code relies on it ([npos + 1]).
    - [std::map<std::string, std::string>] used through [operator[]] is a
      [gmap string string]; the additional headers of a [Response], which
      are only iterated, are the list of entries in iteration order.
    - A C++ exception is the [Throw] outcome of a [Result].
    - Socket and file-system calls are events appended to a trace. *)

From Stdlib Require Import Ascii String NArith ZArith Lia Bool List.
From Stdlib Require Import DecimalString DecimalN DecimalZ.
From stdpp Require Import base option list gmap strings.

Local Open Scope N_scope.

(** String append unfolds on a literal prefix. *)
Arguments String.append !s1 s2 : simpl nomatch.

(** ** Exceptions *)

Inductive exn : Type :=
| invalid_argument
| out_of_range.

Inductive Result (A : Type) : Type :=
| Ok (a : A)
| Throw (e : exn).

Arguments Ok {A} a.
Arguments Throw {A} e.

Definition rbind {A B : Type} (r : Result A) (k : A -> Result B) : Result B :=
  match r with
  | Ok a => k a
  | Throw e => Throw e
  end.

Definition rmap {A B : Type} (f : A -> B) (r : Result A) : Result B :=
  rbind r (fun a => Ok (f a)).

(** ** Characters (<cctype>, "C" locale) *)

Definition chr (n : N) : ascii := ascii_of_N n.
Definition ord (c : ascii) : N := N_of_ascii c.

Definition CR : ascii := chr 13.
Definition LF : ascii := chr 10.
Definition CRLF : string := String CR (String LF EmptyString).
Definition DQUOTE : ascii := chr 34.
Definition BACKSLASH : ascii := chr 92.

Definition between (lo hi n : N) : bool := (lo <=? n) && (n <=? hi).

Definition tolower (c : ascii) : ascii :=
  if between 65 90 (ord c) then chr (ord c + 32) else c.

Definition isspace (c : ascii) : bool :=
  (ord c =? 32) || between 9 13 (ord c).

(** Anonymous-namespace helper of Parsers.cpp.  *)
Definition ci_char_compare (a b : ascii) : bool :=
  Ascii.eqb (tolower a) (tolower b).

(** ** std::string primitives *)

Module Str.

Definition len (s : string) : N := N.of_nat (String.length s).

Fixpoint drop (n : nat) (s : string) : string :=
  match n, s with
  | O, _ => s
  | S n', String _ r => drop n' r
  | S _, EmptyString => EmptyString
  end.

Fixpoint take (n : nat) (s : string) : string :=
  match n, s with
  | O, _ => EmptyString
  | S n', String c r => String c (take n' r)
  | S _, EmptyString => EmptyString
  end.

(** [needle] laid over the front of [hay], compared with [eqb]
    (first argument from the haystack, as std::search calls its predicate). *)
Fixpoint matches_at (eqb : ascii -> ascii -> bool) (needle hay : string) : bool :=
  match needle, hay with
  | EmptyString, _ => true
  | String a n', String b h' => eqb b a && matches_at eqb n' h'
  | String _ _, EmptyString => false
  end.

(** std::search over a whole string: index of the first match, [None] for
    the past-the-end iterator. *)
Fixpoint search (eqb : ascii -> ascii -> bool) (needle hay : string) : option nat :=
  if matches_at eqb needle hay then Some O
  else match hay with
       | EmptyString => None
       | String _ h' => S <$> search eqb needle h'
       end.

(** [s.find(needle)] as an optional index. *)
Definition find (needle s : string) : option nat := search Ascii.eqb needle s.

Fixpoint find_char (c : ascii) (s : string) : option nat :=
  match s with
  | EmptyString => None
  | String d r => if Ascii.eqb d c then Some O else S <$> find_char c r
  end.

(** [s.find_last_of(c)]. *)
Fixpoint find_last_of (c : ascii) (s : string) : option nat :=
  match s with
  | EmptyString => None
  | String d r =>
      match find_last_of c r with
      | Some i => Some (S i)
      | None => if Ascii.eqb d c then Some O else None
      end
  end.

Definition contains (needle s : string) : bool :=
  match find needle s with Some _ => true | None => false end.

End Str.

(** ** size_t arithmetic *)

Definition SIZE_MAX : N := 18446744073709551615.
Definition npos : N := SIZE_MAX.
Definition size_add (a b : N) : N := (a + b) mod (SIZE_MAX + 1).
Definition size_sub (a b : N) : N := (a + (SIZE_MAX + 1) - b mod (SIZE_MAX + 1)) mod (SIZE_MAX + 1).

(** [s.find(c, pos)]: [npos] also when [pos] is past the end. *)
Definition find_char_from (c : ascii) (s : string) (pos : N) : N :=
  if Str.len s <? pos then npos
  else match Str.find_char c (Str.drop (N.to_nat pos) s) with
       | Some i => pos + N.of_nat i
       | None => npos
       end.

(** [s.substr(pos, n)]: throws when [pos > size()]; the length taken is
    [min(n, size() - pos)]. *)
Definition substr (s : string) (pos n : N) : Result string :=
  if Str.len s <? pos then Throw out_of_range
  else
    let rlen := N.min n (Str.len s - pos) in
    Ok (Str.take (N.to_nat rlen) (Str.drop (N.to_nat pos) s)).

(** ** strtoul / strtoull, as std::stoul and std::stoull use them
    (unsigned long and unsigned long long are both 64 bits wide on the
    LP64 targets the POSIX socket code builds for). *)

Definition digit_value (c : ascii) : option N :=
  let n := ord c in
  if between 48 57 n then Some (n - 48)
  else if between 97 122 n then Some (n - 87)
  else if between 65 90 n then Some (n - 55)
  else None.

Definition is_digit (base : N) (c : ascii) : bool :=
  match digit_value c with
  | Some d => d <? base
  | None => false
  end.

Fixpoint skip_space (s : string) : string :=
  match s with
  | String c r => if isspace c then skip_space r else s
  | EmptyString => EmptyString
  end.

(** Value of the longest run of [base] digits at the front of [s]. *)
Fixpoint accumulate (base : N) (s : string) (acc : N) : N :=
  match s with
  | String c r =>
      match digit_value c with
      | Some d => if d <? base then accumulate base r (acc * base + d) else acc
      | None => acc
      end
  | EmptyString => acc
  end.

Definition strip_sign (s : string) : bool * string :=
  match s with
  | String c r =>
      if Ascii.eqb c "-" then (true, r)
      else if Ascii.eqb c "+" then (false, r)
      else (false, s)
  | EmptyString => (false, s)
  end.

(** The optional "0x"/"0X" of base 16 is consumed only in front of a hex digit. *)
Definition strip_0x (base : N) (s : string) : string :=
  match s with
  | String z (String x (String h r)) =>
      if (base =? 16) && Ascii.eqb z "0" && Ascii.eqb (tolower x) "x" && is_digit 16 h
      then String h r else s
  | _ => s
  end.

Definition starts_with_digit (base : N) (s : string) : bool :=
  match s with
  | String c _ => is_digit base c
  | EmptyString => false
  end.

Definition strtoull (s : string) (base : N) : Result N :=
  let (neg, body) := strip_sign (skip_space s) in
  let digits := strip_0x base body in
  if starts_with_digit base digits then
    let v := accumulate base digits 0 in
    if SIZE_MAX <? v then Throw out_of_range
    else Ok (if neg then size_sub 0 v else v)
  else Throw invalid_argument.

Definition stoul (s : string) (base : N) : Result N := strtoull s base.
Definition stoull (s : string) : Result N := strtoull s 10.

(** [static_cast<char>] of an unsigned long keeps the low byte. *)
Definition to_char (n : N) : ascii := chr (n mod 256).

(** ** Common.hpp: the data model *)

Definition MAX_PAYLOAD_SIZE : N := 10485760.

Module RequestInfo.
Record t : Type := mk {
  path : string;
  query : string;
  params : gmap string string;
  method : string;
  body : string;
  keep_alive : bool
}.

Definition set_path (p : string) (r : t) : t :=
  mk p (query r) (params r) (method r) (body r) (keep_alive r).
Definition set_params (m : gmap string string) (r : t) : t :=
  mk (path r) (query r) m (method r) (body r) (keep_alive r).
Definition set_method (m : string) (r : t) : t :=
  mk (path r) (query r) (params r) m (body r) (keep_alive r).
Definition set_body (b : string) (r : t) : t :=
  mk (path r) (query r) (params r) (method r) b (keep_alive r).
Definition set_keep_alive (k : bool) (r : t) : t :=
  mk (path r) (query r) (params r) (method r) (body r) k.
End RequestInfo.

Module Response.
Record t : Type := mk {
  status_code : Z;
  status_text : string;
  content_type : string;
  body : string;
  headers : list (string * string);
  keep_alive : bool
}.

(** The member initialisers of the struct. *)
Definition default : t := mk 200 "OK" "text/html" EmptyString [] true.

Definition set_keep_alive (k : bool) (r : t) : t :=
  mk (status_code r) (status_text r) (content_type r) (body r) (headers r) k.

(** [operator<<] on an int and on a size_t. *)
Definition put_int (z : Z) : string := NilZero.string_of_int (Z.to_int z).
Definition put_size (n : N) : string := NilZero.string_of_uint (N.to_uint n).

(** One [key: value\r\n] line per entry, in iteration order. *)
Fixpoint put_headers (oss : string) (hs : list (string * string)) : string :=
  match hs with
  | [] => oss
  | (key, val) :: rest => put_headers ((((oss +:+ key) +:+ ": ") +:+ val) +:+ CRLF) rest
  end.

(** Common.cpp, [Response::to_string]: every [<<] appends to the stream. *)
Definition to_string (r : t) : string :=
  let oss := EmptyString in
  let oss := ((((oss +:+ "HTTP/1.1 ") +:+ put_int (status_code r)) +:+ " ")
                +:+ status_text r) +:+ CRLF in
  let oss := ((oss +:+ "Content-Type: ") +:+ content_type r) +:+ CRLF in
  let oss := ((oss +:+ "Content-Length: ") +:+ put_size (Str.len (body r))) +:+ CRLF in
  let oss := ((oss +:+ "Connection: ")
                +:+ (if keep_alive r then "keep-alive" else "close")) +:+ CRLF in
  let oss := put_headers oss (headers r) in
  (oss +:+ CRLF) +:+ body r.
End Response.

(** ** Parsers.cpp *)

(** One [std::getline(ss, segment, delim)] on a stream whose unread part is
    [s]: [None] when nothing at all could be extracted (the call fails),
    otherwise the segment and the unread part left behind. *)
Fixpoint getline (delim : ascii) (s : string) : option (string * string) :=
  match s with
  | EmptyString => None
  | String c r =>
      if Ascii.eqb c delim then Some (EmptyString, r)
      else match getline delim r with
           | Some (seg, rest) => Some (String c seg, rest)
           | None => Some (String c EmptyString, EmptyString)
           end
  end.

(** The segments seen by [while (std::getline(ss, segment, delim))]. *)
Fixpoint getlines (delim : ascii) (s : string) : list string :=
  match s with
  | EmptyString => []
  | String c r =>
      if Ascii.eqb c delim then EmptyString :: getlines delim r
      else match getlines delim r with
           | seg :: rest => String c seg :: rest
           | [] => [String c EmptyString]
           end
  end.

(** Body of the query loop of [parse_url]: [info.params[key] = value]. *)
Definition store_pair (m : gmap string string) (segment : string) : gmap string string :=
  match Str.find_char "=" segment with
  | Some eqPos => <[Str.take eqPos segment := Str.drop (S eqPos) segment]> m
  | None => m
  end.

Definition parse_url (url : string) : RequestInfo.t :=
  let '(path, query) :=
    match Str.find_char "?" url with
    | None => (url, EmptyString)
    | Some pos => (Str.take pos url, Str.drop (S pos) url)
    end in
  let path := if String.eqb path "/" then "/index.html" else path in
  let path :=
    match path with
    | String c r => if Ascii.eqb c "/" then r else path
    | EmptyString => path
    end in
  let params := fold_left store_pair (getlines "&" query) ∅ in
  RequestInfo.mk path query params EmptyString EmptyString true.

(** [url_decode]; the argument is the unread suffix [str[i..]].  The guard
    [i + 2 < str.length()] holds exactly when two characters follow. *)
Fixpoint url_decode (str : string) : Result string :=
  match str with
  | EmptyString => Ok EmptyString
  | String c rest =>
      if Ascii.eqb c "+" then rmap (String " ") (url_decode rest)
      else
        match rest with
        | String h1 (String h2 rest') =>
            if Ascii.eqb c "%" then
              rbind (stoul (String h1 (String h2 EmptyString)) 16) (fun n =>
              rmap (String (to_char n)) (url_decode rest'))
            else rmap (String c) (url_decode rest)
        | _ => rmap (String c) (url_decode rest)
        end
  end.

Fixpoint form_pairs (segments : list string) (m : gmap string string)
  : Result (gmap string string) :=
  match segments with
  | [] => Ok m
  | segment :: rest =>
      match Str.find_char "=" segment with
      | Some eqPos =>
          rbind (url_decode (Str.take eqPos segment)) (fun key =>
          rbind (url_decode (Str.drop (S eqPos) segment)) (fun value =>
          form_pairs rest (<[key := value]> m)))
      | None => form_pairs rest m
      end
  end.

Definition parse_form_body (form_body : string) (info : RequestInfo.t)
  : Result RequestInfo.t :=
  rmap (fun m => RequestInfo.set_params m info)
       (form_pairs (getlines "&" form_body) (RequestInfo.params info)).

Inductive State : Type := SEARCHING | KEY | VALUE.

(** The scanner of [parse_json_body] over the unread suffix.  [in_string]
    is set while control is inside the inner [while] that copies a quoted
    value; the closing quote it stops at is the character the enclosing
    [for] then steps over. *)
Fixpoint json_scan (body : string) (state : State) (in_string : bool)
    (currentKey currentValue : string) (m : gmap string string)
  : gmap string string :=
  match body with
  | EmptyString => m
  | String c rest =>
      if in_string then
        match rest with
        | String d rest' =>
            if Ascii.eqb c BACKSLASH && Ascii.eqb d DQUOTE then
              json_scan rest' state true currentKey
                        (currentValue +:+ String DQUOTE EmptyString) m
            else if Ascii.eqb c DQUOTE then
              json_scan rest state false currentKey currentValue m
            else
              json_scan rest state true currentKey
                        (currentValue +:+ String c EmptyString) m
        | EmptyString => m
        end
      else
        match state with
        | SEARCHING =>
            json_scan rest (if Ascii.eqb c DQUOTE then KEY else SEARCHING)
                      false currentKey currentValue m
        | KEY =>
            if Ascii.eqb c DQUOTE then
              json_scan rest VALUE false currentKey currentValue m
            else
              json_scan rest KEY false (currentKey +:+ String c EmptyString)
                        currentValue m
        | VALUE =>
            if Ascii.eqb c ":" || isspace c then
              json_scan rest VALUE false currentKey currentValue m
            else if Ascii.eqb c "," || Ascii.eqb c "}" then
              if String.eqb currentKey EmptyString then
                json_scan rest SEARCHING false currentKey currentValue m
              else
                json_scan rest SEARCHING false EmptyString EmptyString
                          (<[currentKey := currentValue]> m)
            else if Ascii.eqb c DQUOTE then
              json_scan rest VALUE true currentKey currentValue m
            else
              json_scan rest VALUE false currentKey
                        (currentValue +:+ String c EmptyString) m
        end
  end.

Definition parse_json_body (body : string) (info : RequestInfo.t) : RequestInfo.t :=
  RequestInfo.set_params
    (json_scan body SEARCHING false EmptyString EmptyString (RequestInfo.params info))
    info.

Definition mime_types : list (string * string) :=
  [ (".html", "text/html");
    (".css", "text/css");
    (".js", "application/javascript");
    (".jpg", "image/jpeg");
    (".jpeg", "image/jpeg");
    (".png", "image/png") ].

Fixpoint table_find (key : string) (table : list (string * string)) : option string :=
  match table with
  | [] => None
  | (k, v) :: rest => if String.eqb k key then Some v else table_find key rest
  end.

Definition get_mime_type (path : string) : string :=
  match Str.find_last_of "." path with
  | None => "text/plain"
  | Some dot_pos =>
      match table_find (Str.drop dot_pos path) mime_types with
      | Some mime => mime
      | None => "text/plain"
      end
  end.

Fixpoint skip_separators (s : string) : string :=
  match s with
  | String c r => if Ascii.eqb c " " || Ascii.eqb c ":" then skip_separators r else s
  | EmptyString => EmptyString
  end.

(** [std::find(it, header_end_it, '\r')] and the range up to it. *)
Fixpoint until_cr (s : string) : string :=
  match s with
  | String c r => if Ascii.eqb c CR then EmptyString else String c (until_cr r)
  | EmptyString => EmptyString
  end.

(** [extract_header_value]; [headers] is the range
    [full_data.begin(), header_end_it).  The iterator arithmetic of the
    source is defined only for [max_pos <= full_data.size()]. *)
Definition extract_header_value (full_data : string) (max_pos : nat) (target : string)
  : string :=
  let headers := Str.take max_pos full_data in
  match Str.search ci_char_compare target headers with
  | None => EmptyString
  | Some it =>
      if Nat.eqb it (String.length headers) then EmptyString
      else until_cr (skip_separators (Str.drop (it + String.length target) headers))
  end.

(** ** Server.cpp *)

Module ServerConstants.
Definition MAX_READ_BUFFER : N := 30000.
Definition CHUNK_BUFFER_SIZE : N := 4096.
Definition HTTP_DELIM : string := CRLF +:+ CRLF.
Definition PUBLIC_DIR : string := "public/".
Definition DEFAULT_INDEX : string := "index.html".
Definition HDR_CONNECTION : string := "Connection:".
Definition HDR_CONTENT_LEN : string := "Content-Length:".
Definition HDR_CONTENT_TYPE : string := "Content-Type:".
Definition MIME_URLENCODED : string := "application/x-www-form-urlencoded".
Definition MIME_JSON : string := "application/json".
End ServerConstants.

(** *** The session's view of the operating system

    The peer's bytes arrive as a queue of packets.  A [read] for [count]
    bytes hands over at most [count] bytes of the packet at the front and
    leaves the remainder queued; an exhausted queue or an empty packet is
    a read that returns [<= 0] (peer closed, error or receive timeout).
    Every system call the session issues is appended to [trace]. *)

Inductive Event : Type :=
| EvRead (count : N) (got : option string)
| EvOpen (path : string)
| EvSend (raw_response : string)
| EvLog (method path : string) (status_code : Z) (status_text : string)
| EvClose.

Record World : Type := mkWorld {
  inbox : list string;
  trace : list Event
}.

Definition M (A : Type) : Type := World -> Result A * World.

Definition ret {A : Type} (a : A) : M A := fun w => (Ok a, w).

Definition bind {A B : Type} (m : M A) (k : A -> M B) : M B :=
  fun w =>
    match m w with
    | (Ok a, w') => k a w'
    | (Throw e, w') => (Throw e, w')
    end.

Definition lift {A : Type} (r : Result A) : M A := fun w => (r, w).

Definition emit (e : Event) : M unit :=
  fun w => (Ok tt, mkWorld (inbox w) (trace w ++ [e])).

Notation "'let*' x ':=' m 'in' k" := (bind m (fun x => k))
  (at level 10, x pattern, m at level 100, k at level 200).

(** [read(client_socket, buffer, count)]; [None] stands for a result [<= 0]. *)
Definition sock_read (count : N) : M (option string) :=
  fun w =>
    match inbox w with
    | [] => (Ok None, mkWorld [] (trace w ++ [EvRead count None]))
    | pkt :: rest =>
        let got := Str.take (N.to_nat count) pkt in
        let left := Str.drop (N.to_nat count) pkt in
        if String.eqb got EmptyString
        then (Ok None, mkWorld rest (trace w ++ [EvRead count None]))
        else (Ok (Some got),
              mkWorld (if String.eqb left EmptyString then rest else left :: rest)
                      (trace w ++ [EvRead count (Some got)]))
    end.

(** What is still queued on the socket: bytes and packet boundaries. *)
Fixpoint queued (packets : list string) : nat :=
  match packets with
  | [] => O
  | pkt :: rest => (S (String.length pkt) + queued rest)%nat
  end.

Definition pending (w : World) : nat := queued (inbox w).

Section Session.

(** The files under the working directory: contents by path, [None] when
    the stream fails to open. *)
Variable fs : string -> option string.

(** The route table, filled by [add_route] before [start]. *)
Variable routes : gmap string (RequestInfo.t -> Response.t).

Definition open_file (path : string) : M (option string) :=
  let* _ := emit (EvOpen path) in ret (fs path).

Definition handle_static_file (requested_path : string) : M Response.t :=
  let res := Response.default in
  if Str.contains ".." requested_path then
    ret (Response.mk 403 "Forbidden" (Response.content_type res)
           "<h1>403 Forbidden: Directory traversal detected</h1>"
           (Response.headers res) (Response.keep_alive res))
  else
    let safe_path := ServerConstants.PUBLIC_DIR +:+ requested_path in
    let* file := open_file safe_path in
    match file with
    | Some content =>
        ret (Response.mk (Response.status_code res) (Response.status_text res)
               (get_mime_type safe_path) content
               (Response.headers res) (Response.keep_alive res))
    | None =>
        ret (Response.mk 404 "Not Found" (Response.content_type res)
               "<h1>404: File Not Found</h1>"
               (Response.headers res) (Response.keep_alive res))
    end.

(** The chunked body loop.  Every successful read adds at least one byte,
    so [content_length - current_body_len] iterations always suffice;
    [fuel] is that bound. *)
Fixpoint read_body (fuel : nat) (content_length : N) (requestData : string)
    (current_body_len : N) : M string :=
  if current_body_len <? content_length then
    match fuel with
    | O => ret requestData
    | S fuel' =>
        let to_read := N.min ServerConstants.CHUNK_BUFFER_SIZE
                             (content_length - current_body_len) in
        let* extra_read := sock_read to_read in
        match extra_read with
        | None => ret requestData
        | Some extra_buffer =>
            read_body fuel' content_length (requestData +:+ extra_buffer)
                      (current_body_len + Str.len extra_buffer)
        end
    end
  else ret requestData.

(** Step 3 of the loop body: the request, the response so far, the
    [error_occurred] flag and the possibly grown [requestData]. *)
Definition read_payload (requestData : string) (body_pos : nat) (req : RequestInfo.t)
  : M (RequestInfo.t * Response.t * bool * string) :=
  let content_len_str :=
    extract_header_value requestData body_pos ServerConstants.HDR_CONTENT_LEN in
  let res := Response.default in
  if String.eqb content_len_str EmptyString then ret (req, res, false, requestData)
  else
    let* content_length := lift (stoull content_len_str) in
    if MAX_PAYLOAD_SIZE <? content_length then
      ret (req,
           Response.mk 413 "Payload Too Large" "text/plain" "Payload exceeds limits."
             (Response.headers res) (Response.keep_alive res),
           true, requestData)
    else
      let current_body_len := Str.len requestData - (N.of_nat body_pos + 4) in
      let* requestData :=
        read_body (N.to_nat (content_length - current_body_len))
                  content_length requestData current_body_len in
      let* body := lift (substr requestData (N.of_nat body_pos + 4) content_length) in
      ret (RequestInfo.set_body body req, res, false, requestData).

(** "Parse specific body types for POST requests". *)
Definition parse_body (requestData : string) (body_pos : nat) (req : RequestInfo.t)
  : M RequestInfo.t :=
  if String.eqb (RequestInfo.method req) "POST" then
    let contentType :=
      extract_header_value requestData body_pos ServerConstants.HDR_CONTENT_TYPE in
    if Str.contains ServerConstants.MIME_URLENCODED contentType then
      lift (parse_form_body (RequestInfo.body req) req)
    else if Str.contains ServerConstants.MIME_JSON contentType then
      ret (parse_json_body (RequestInfo.body req) req)
    else ret req
  else ret req.

(** "Normalize path for static routing defaults". *)
Definition normalize_path (path : string) : string :=
  let path :=
    if String.eqb path EmptyString || String.eqb path "/" || String.eqb path "public"
       || String.eqb path ServerConstants.PUBLIC_DIR
    then ServerConstants.DEFAULT_INDEX else path in
  if (String.length ServerConstants.PUBLIC_DIR <=? String.length path)%nat
     && String.eqb (Str.take (String.length ServerConstants.PUBLIC_DIR) path)
                   ServerConstants.PUBLIC_DIR
  then Str.drop (String.length ServerConstants.PUBLIC_DIR) path
  else path.

Definition dispatch (req : RequestInfo.t) : M Response.t :=
  match routes !! RequestInfo.path req with
  | Some handler => ret (handler req)
  | None => handle_static_file (RequestInfo.path req)
  end.

(** Step 5, "Response Finalization". *)
Definition finalize (req : RequestInfo.t) (res : Response.t) : Response.t :=
  let res := Response.set_keep_alive (RequestInfo.keep_alive req) res in
  if (400 <=? Response.status_code res)%Z then Response.set_keep_alive false res
  else res.

(** The request line: method and raw target are cut out at the first two
    spaces.  [first_space + 1] wraps to 0 when no space is found. *)
Definition parse_request_line (requestData : string) : Result RequestInfo.t :=
  let first_space := find_char_from " " requestData 0 in
  let second_space := find_char_from " " requestData (size_add first_space 1) in
  rbind (substr requestData 0 first_space) (fun method =>
  rbind (substr requestData (size_add first_space 1)
                (size_sub second_space (size_add first_space 1))) (fun rawUrl =>
  Ok (RequestInfo.set_method method (parse_url rawUrl)))).

(** "Determine if the client explicitly requested to close the connection". *)
Definition connection_header (requestData : string) (body_pos : nat)
    (req : RequestInfo.t) : RequestInfo.t :=
  let conn_header :=
    extract_header_value requestData body_pos ServerConstants.HDR_CONNECTION in
  if Str.contains "close" conn_header || Str.contains "Close" conn_header
  then RequestInfo.set_keep_alive false req else req.

(** Steps 3 and 4: payload handling, then routing and execution unless
    [error_occurred]. *)
Definition serve (requestData : string) (body_pos : nat) (req : RequestInfo.t)
  : M (RequestInfo.t * Response.t) :=
  let* (req, res, error_occurred, requestData) :=
    read_payload requestData body_pos req in
  if negb error_occurred then
    let* req := parse_body requestData body_pos req in
    let req := RequestInfo.set_path (normalize_path (RequestInfo.path req)) req in
    let* res := dispatch req in
    ret (req, res)
  else ret (req, res).

(** Step 5: finalize, transmit, log.  The send loop is one [EvSend] of the
    serialized response: how many calls the kernel takes, or whether one
    fails, changes nothing in what the session does next. *)
Definition respond (req : RequestInfo.t) (res : Response.t)
  : M (option (RequestInfo.t * Response.t)) :=
  let res := finalize req res in
  let* _ := emit (EvSend (Response.to_string res)) in
  let* _ := emit (EvLog (RequestInfo.method req) (RequestInfo.path req)
                        (Response.status_code res) (Response.status_text res)) in
  ret (Some (req, res)).

(** One pass through the body of the keep-alive loop.  [None] is a [break]
    taken before any response exists; otherwise the request and the
    finalized response the pass ends with (the loop goes round again
    exactly when that response has [keep_alive] set). *)
Definition handle_request : M (option (RequestInfo.t * Response.t)) :=
  let* valread := sock_read ServerConstants.MAX_READ_BUFFER in
  match valread with
  | None => ret None
  | Some requestData =>
      match Str.find ServerConstants.HTTP_DELIM requestData with
      | None => ret None
      | Some body_pos =>
          let* req := lift (parse_request_line requestData) in
          let req := connection_header requestData body_pos req in
          let* (req, res) := serve requestData body_pos req in
          respond req res
      end
  end.

(** The keep-alive loop.  A pass that responds has consumed input, so the
    loop cannot go round more often than there are bytes and packets
    queued; [fuel] counts the passes still allowed. *)
Fixpoint keep_alive_loop (fuel : nat) : M unit :=
  match fuel with
  | O => ret tt
  | S fuel' =>
      let* pass := handle_request in
      match pass with
      | None => ret tt
      | Some (_, res) =>
          if Response.keep_alive res then keep_alive_loop fuel' else ret tt
      end
  end.

Definition handle_client : M unit :=
  fun w =>
    (let* _ := keep_alive_loop (S (pending w)) in
     emit EvClose) w.

End Session.

(** The routing key a request target ends up with. *)
Definition routing_key (url : string) : string :=
  normalize_path (RequestInfo.path (parse_url url)).

(** ** Vocabulary of the specification *)

(** A hexadecimal digit and its value. *)
Definition hex_digit (c : ascii) : bool := is_digit 16 c.

Definition hex_value (c : ascii) : N :=
  match digit_value c with Some d => d | None => 0 end.

(** The text of a form body or query carrying the given pairs. *)
Definition pair_text (kv : string * string) : string :=
  fst kv +:+ String "=" (snd kv).

Definition encode_pairs (kvs : list (string * string)) : string :=
  String.concat "&" (map pair_text kvs).

(** A key that [key=value&...] can carry: no ['='], no ['&']. *)
Definition plain_key (k : string) : Prop :=
  Str.find_char "=" k = None /\ Str.find_char "&" k = None.

Definition plain_value (v : string) : Prop := Str.find_char "&" v = None.

Definition insert_pair (m : gmap string string) (kv : string * string)
  : gmap string string := <[fst kv := snd kv]> m.

(** Header names are compared with the case of letters folded. *)
Fixpoint lowercase (s : string) : string :=
  match s with
  | EmptyString => EmptyString
  | String c r => String (tolower c) (lowercase r)
  end.

Definition same_ignoring_case (a b : string) : Prop := lowercase a = lowercase b.

Definition occurs_ignoring_case (target range : string) : Prop :=
  exists pre name post, range = pre +:+ name +:+ post /\ same_ignoring_case name target.

Fixpoint all_separators (s : string) : bool :=
  match s with
  | EmptyString => true
  | String c r => (Ascii.eqb c " " || Ascii.eqb c ":") && all_separators r
  end.

(** The additional header lines, one after the other. *)
Definition header_lines (hs : list (string * string)) : string :=
  fold_right (fun kv acc => fst kv +:+ ": " +:+ snd kv +:+ CRLF +:+ acc) EmptyString hs.

(** The serialized form, given the Content-Length numeral and the
    Connection value. *)
Definition layout (r : Response.t) (digits connection : string) : string :=
  "HTTP/1.1 " +:+ Response.put_int (Response.status_code r) +:+ " "
    +:+ Response.status_text r +:+ CRLF
  +:+ "Content-Type: " +:+ Response.content_type r +:+ CRLF
  +:+ "Content-Length: " +:+ digits +:+ CRLF
  +:+ "Connection: " +:+ connection +:+ CRLF
  +:+ header_lines (Response.headers r)
  +:+ CRLF
  +:+ Response.body r.

(** A decimal numeral read back as a number. *)
Definition read_size (digits : string) : option N :=
  option_map N.of_uint (NilZero.uint_of_string digits).

(** The responses a trace transmits, in order. *)
Fixpoint sent (evs : list Event) : list string :=
  match evs with
  | [] => []
  | EvSend raw :: rest => raw :: sent rest
  | _ :: rest => sent rest
  end.

(** A computation that transmits nothing and leaves earlier events alone. *)
Definition silent {A : Type} (m : M A) : Prop :=
  forall w r w', m w = (r, w') ->
    exists evs, trace w' = trace w ++ evs /\ sent evs = [].

(** A computation that only ever takes from the socket. *)
Definition consuming {A : Type} (m : M A) : Prop :=
  forall w r w', m w = (r, w') -> (pending w' <= pending w)%nat.

(** ** main.cpp *)

Module Config.
Definition DEFAULT_PORT : Z := 8080.
Definition DEFAULT_THREADS : Z := 4.
End Config.

Module ServerConfig.
Record t : Type := mk { port : Z; threads : Z }.

(** The member initialisers of the struct. *)
Definition default : t := mk Config.DEFAULT_PORT Config.DEFAULT_THREADS.
End ServerConfig.

Definition INT_MAX : Z := 2147483647.
Definition INT_MIN : Z := -2147483648.

(** [std::stoi]: [strtol] in base 10, then the range check of [int].
    [strtol] saturates at the limits of [long], which lie outside [int],
    so the exact value of the digit run decides. *)
Definition stoi (s : string) : Result Z :=
  let (neg, digits) := strip_sign (skip_space s) in
  if starts_with_digit 10 digits then
    let v := Z.of_N (accumulate 10 digits 0) in
    let v := if neg then (- v)%Z else v in
    if (v <? INT_MIN)%Z || (INT_MAX <? v)%Z then Throw out_of_range else Ok v
  else Throw invalid_argument.

(** Body of the loop of [load_config]. *)
Definition config_line (config : ServerConfig.t) (line : string)
  : Result ServerConfig.t :=
  match Str.find_char "=" line with
  | Some delim =>
      let key := Str.take delim line in
      let val := Str.drop (S delim) line in
      rbind (if String.eqb key "port"
             then rmap (fun p => ServerConfig.mk p (ServerConfig.threads config))
                       (stoi val)
             else Ok config) (fun config =>
      if String.eqb key "threads"
      then rmap (fun t => ServerConfig.mk (ServerConfig.port config) t) (stoi val)
      else Ok config)
  | None => Ok config
  end.

Fixpoint config_lines (config : ServerConfig.t) (lines : list string)
  : Result ServerConfig.t :=
  match lines with
  | [] => Ok config
  | line :: rest => rbind (config_line config line) (fun config => config_lines config rest)
  end.

(** [load_config]; [file] is the content of the configuration file,
    [None] when it cannot be opened.  The two console messages are left
    out. *)
Definition load_config (file : option string) : Result ServerConfig.t :=
  match file with
  | None => Ok ServerConfig.default
  | Some content => config_lines ServerConfig.default (getlines LF content)
  end.

Module Message.
Record t : Type := mk { user : string; text : string; timestamp : string }.
End Message.

(** Body of the loop of [load_database]: one line [User|timestamp|Message].
    [d1 + 1] wraps to 0 when the line has no bar. *)
Definition database_line (chat_history : list Message.t) (line : string)
  : Result (list Message.t) :=
  let d1 := find_char_from "|" line 0 in
  let d2 := find_char_from "|" line (size_add d1 1) in
  if negb (d1 =? npos) && negb (d2 =? npos) then
    rbind (substr line 0 d1) (fun u =>
    rbind (substr line (size_add d1 1) (size_sub (size_sub d2 d1) 1)) (fun ts =>
    rbind (substr line (size_add d2 1) npos) (fun msg =>
    Ok (chat_history ++ [Message.mk u msg ts]))))
  else Ok chat_history.

Fixpoint database_lines (chat_history : list Message.t) (lines : list string)
  : Result (list Message.t) :=
  match lines with
  | [] => Ok chat_history
  | line :: rest =>
      rbind (database_line chat_history line) (fun chat_history =>
      database_lines chat_history rest)
  end.

(** [load_database]; [file] is the content of the database file, [None]
    when it cannot be opened; the result is the history it leaves in
    memory. *)
Definition load_database (file : option string) (chat_history : list Message.t)
  : Result (list Message.t) :=
  match file with
  | None => Ok chat_history
  | Some content => database_lines chat_history (getlines LF content)
  end.

Definition handle_greet (req : RequestInfo.t) : Response.t :=
  let res := Response.default in
  let name :=
    match RequestInfo.params req !! "name" with
    | Some name => name
    | None => "Guest"
    end in
  Response.mk (Response.status_code res) (Response.status_text res)
    (Response.content_type res) (("<h1>Hello, " +:+ name) +:+ "!</h1>")
    (Response.headers res) (Response.keep_alive res).

(** The message board: the history in memory and the database file
    ([None] while it does not exist). *)
Module Board.
Record t : Type := mk { chat_history : list Message.t; database : option string }.
End Board.

(** [file << ...] on a stream opened with [std::ios::app]: the file is
    created when missing and the text goes to its end. *)
Definition append_file (file : option string) (text : string) : option string :=
  match file with
  | None => Some text
  | Some content => Some (content +:+ text)
  end.

Section Chat.

(** The two raw literals of the page, in front of and behind the messages. *)
Variables page_head page_tail : string.

Definition render_message (html : string) (m : Message.t) : string :=
  let html := html +:+ "<div class='msg'><div class='msg-header'>" in
  let html := html +:+ (("<span class='msg-user'>" +:+ Message.user m) +:+ "</span>") in
  let html :=
    html +:+ (("<span class='msg-time'>" +:+ Message.timestamp m) +:+ "</span></div>") in
  html +:+ (("<div class='msg-text'>" +:+ Message.text m) +:+ "</div></div>").

(** [handle_chat]; [now] is what [strftime] writes for the current time. *)
Definition handle_chat (now : string) (req : RequestInfo.t) (board : Board.t)
  : Response.t * Board.t :=
  let res := Response.default in
  if String.eqb (RequestInfo.method req) "POST" then
    let user :=
      match RequestInfo.params req !! "user" with
      | Some user => user
      | None => "Anonymous"
      end in
    let msg :=
      match RequestInfo.params req !! "message" with
      | Some msg => msg
      | None => EmptyString
      end in
    let board :=
      if negb (String.eqb msg EmptyString) && negb (String.eqb user EmptyString) then
        let timestamp := now in
        Board.mk (Board.chat_history board ++ [Message.mk user msg timestamp])
          (append_file (Board.database board)
             (((((user +:+ "|") +:+ timestamp) +:+ "|") +:+ msg) +:+ String LF EmptyString))
      else board in
    (Response.mk 303 "See Other" (Response.content_type res) (Response.body res)
       (Response.headers res ++ [("Location", "/chat")]) (Response.keep_alive res),
     board)
  else
    let html := page_head in
    let html := fold_left render_message (Board.chat_history board) html in
    let html := html +:+ page_tail in
    (Response.mk (Response.status_code res) (Response.status_text res)
       (Response.content_type res) html (Response.headers res) (Response.keep_alive res),
     board).

End Chat.

(** ** Vocabulary of the further properties *)

(** The hexadecimal digit (upper case) of a value below 16. *)
Definition hex_char (n : N) : ascii :=
  if n <? 10 then chr (48 + n) else chr (55 + n).

(** Percent-encoding of every byte: ['%'] and two hexadecimal digits. *)
Fixpoint percent_encode (s : string) : string :=
  match s with
  | EmptyString => EmptyString
  | String c r =>
      String "%" (String (hex_char (ord c / 16))
                         (String (hex_char (ord c mod 16)) (percent_encode r)))
  end.

(** A flat JSON object with string values, as a client would send it. *)
Definition render_member (kv : string * string) : string :=
  String DQUOTE (fst kv) +:+ String DQUOTE (String ":" (String DQUOTE (snd kv)))
    +:+ String DQUOTE EmptyString.

Definition render_object (kvs : list (string * string)) : string :=
  String "{" (String.concat "," (map render_member kvs)) +:+ "}".

(** A member [render_object] can carry: a non-empty key without quotes, a
    value without quotes and backslashes. *)
Definition plain_member (kv : string * string) : Prop :=
  fst kv <> EmptyString /\
  Str.find_char DQUOTE (fst kv) = None /\
  Str.find_char DQUOTE (snd kv) = None /\
  Str.find_char BACKSLASH (snd kv) = None.

(** A computation all of whose events satisfy [P]. *)
Definition emits (P : Event -> Prop) {A : Type} (m : M A) : Prop :=
  forall w r w', m w = (r, w') ->
    exists evs, trace w' = trace w ++ evs /\ Forall P evs.

(** What a session may do before it closes the socket: read into the
    request buffer in full or into the chunk buffer within its size, open
    a file below the asset root whose name has no "..", send and log. *)
Definition session_event (e : Event) : Prop :=
  match e with
  | EvRead count _ =>
      count = ServerConstants.MAX_READ_BUFFER \/
      (0 < count /\ count <= ServerConstants.CHUNK_BUFFER_SIZE)
  | EvOpen path =>
      exists requested_path,
        path = ServerConstants.PUBLIC_DIR +:+ requested_path /\
        Str.contains ".." requested_path = false
  | EvSend _ => True
  | EvLog _ _ _ _ => True
  | EvClose => False
  end.

(** The bytes a socket still holds, packet after packet. *)
Fixpoint stream (packets : list string) : string :=
  match packets with
  | [] => EmptyString
  | pkt :: rest => pkt +:+ stream rest
  end.

(** A database file ready for the next record: missing, empty, or ending
    in a newline. *)
Definition complete_lines (file : option string) : Prop :=
  match file with
  | None => True
  | Some content =>
      content = EmptyString \/ exists c, content = c +:+ String LF EmptyString
  end.

(** * Facts about the string primitives *)

Section StringFacts.

Implicit Types (s t u : string) (c d : ascii) (n i : nat).

Lemma app_empty_r s : s +:+ EmptyString = s.
Proof. induction s; simpl; congruence. Qed.

Lemma app_assoc s t u : (s +:+ t) +:+ u = s +:+ (t +:+ u).
Proof. induction s; simpl; congruence. Qed.

Lemma length_app s t : String.length (s +:+ t) = (String.length s + String.length t)%nat.
Proof. induction s; simpl; congruence. Qed.

Lemma take_drop n s : Str.take n s +:+ Str.drop n s = s.
Proof. revert s; induction n; intros [|c s]; simpl; try reflexivity. now rewrite IHn. Qed.

Lemma take_app s t : Str.take (String.length s) (s +:+ t) = s.
Proof. induction s; simpl; congruence. Qed.

Lemma drop_app s t : Str.drop (String.length s) (s +:+ t) = t.
Proof. induction s; simpl; congruence. Qed.

Lemma length_take n s : (n <= String.length s)%nat -> String.length (Str.take n s) = n.
Proof.
  revert s; induction n; intros [|c s]; simpl; intros H; try lia.
  rewrite IHn; lia.
Qed.

Lemma drop_drop n i s : Str.drop n (Str.drop i s) = Str.drop (i + n) s.
Proof.
  revert s; induction i; intros s; simpl; [reflexivity|].
  destruct s; [now destruct n|]. apply IHi.
Qed.

Lemma drop_all s : Str.drop (String.length s) s = EmptyString.
Proof. induction s; simpl; congruence. Qed.

(** *** [find_char] *)

Lemma find_char_Some c s i :
  Str.find_char c s = Some i ->
  s = Str.take i s +:+ String c (Str.drop (S i) s) /\
  Str.find_char c (Str.take i s) = None /\ (i < String.length s)%nat.
Proof.
  revert i; induction s as [|d s IH]; simpl; intros i H; [discriminate|].
  destruct (Ascii.eqb_spec d c) as [->|Hne].
  - injection H as <-. simpl. split; [reflexivity | split; [reflexivity | lia]].
  - destruct (Str.find_char c s) as [j|] eqn:E; [|discriminate].
    injection H as <-. destruct (IH j eq_refl) as (H1 & H2 & H3).
    simpl. split; [f_equal; exact H1 | split; [| lia]].
    destruct (Ascii.eqb_spec d c); [contradiction|]. now rewrite H2.
Qed.

Lemma find_char_app c s t :
  Str.find_char c s = None ->
  Str.find_char c (s +:+ String c t) = Some (String.length s).
Proof.
  induction s as [|d s IH]; simpl; intros H.
  - now rewrite Ascii.eqb_refl.
  - destruct (Ascii.eqb d c); [discriminate|].
    destruct (Str.find_char c s); [discriminate|]. now rewrite IH.
Qed.

(** *** [matches_at] and [search] *)

Lemma matches_at_eqb_iff p s :
  Str.matches_at Ascii.eqb p s = true <-> exists t, s = p +:+ t.
Proof.
  revert s; induction p as [|a p IH]; intros s; simpl.
  - split; eauto.
  - destruct s as [|b s].
    + split; [discriminate | intros [t Ht]; discriminate].
    + rewrite andb_true_iff, IH, Ascii.eqb_eq. split.
      * intros [-> [t ->]]. eauto.
      * intros [t Ht]. injection Ht as -> ->. eauto.
Qed.

Lemma search_Some eqb p s i :
  Str.search eqb p s = Some i ->
  Str.matches_at eqb p (Str.drop i s) = true /\
  (i <= String.length s)%nat /\
  forall j, (j < i)%nat -> Str.matches_at eqb p (Str.drop j s) = false.
Proof.
  revert i; induction s as [|b s IH]; intros i; simpl.
  - destruct (Str.matches_at eqb p EmptyString) eqn:E; [|discriminate].
    intros [= <-]. repeat split; [assumption | lia | intros; lia].
  - destruct (Str.matches_at eqb p (String b s)) eqn:E.
    + intros [= <-]. repeat split; [assumption | lia | intros; lia].
    + destruct (Str.search eqb p s) as [k|] eqn:Es; [|discriminate].
      intros [= <-]. destruct (IH k eq_refl) as (H1 & H2 & H3).
      repeat split; [assumption | lia |].
      intros [|j] Hj; simpl; [assumption | apply H3; lia].
Qed.

Lemma search_None eqb p s :
  Str.search eqb p s = None ->
  forall j, Str.matches_at eqb p (Str.drop j s) = false.
Proof.
  induction s as [|b s IH]; simpl.
  - destruct (Str.matches_at eqb p EmptyString) eqn:E; [discriminate|].
    intros _ [|j]; assumption.
  - destruct (Str.matches_at eqb p (String b s)) eqn:E; [discriminate|].
    destruct (Str.search eqb p s) eqn:Es; [discriminate|].
    intros _ [|j]; simpl; [assumption | now apply IH].
Qed.

Lemma contains_iff p s :
  Str.contains p s = true <-> exists pre post, s = pre +:+ p +:+ post.
Proof.
  unfold Str.contains, Str.find. split.
  - destruct (Str.search Ascii.eqb p s) as [i|] eqn:E; [|discriminate].
    intros _. apply search_Some in E as (H & _ & _).
    apply matches_at_eqb_iff in H as [t Ht].
    exists (Str.take i s), t. now rewrite <- Ht, take_drop.
  - intros (pre & post & ->).
    destruct (Str.search Ascii.eqb p (pre +:+ p +:+ post)) eqn:E; [reflexivity|].
    pose proof (search_None _ _ _ E (String.length pre)) as H.
    rewrite drop_app in H.
    assert (Str.matches_at Ascii.eqb p (p +:+ post) = true) as H'
      by (apply matches_at_eqb_iff; eauto).
    congruence.
Qed.

End StringFacts.

(** * The percent/plus decoder *)

Section UrlDecode.

(** Facts about single characters are settled by running through the 256
    of them. *)
Ltac each_char c :=
  destruct c as [[|] [|] [|] [|] [|] [|] [|] [|]].

Lemma hex_digit_cases c :
  hex_digit c = true ->
  isspace c = false /\
  Ascii.eqb c "-" = false /\ Ascii.eqb c "+" = false /\
  Ascii.eqb (tolower c) "x" = false /\
  digit_value c = Some (hex_value c) /\ (hex_value c <? 16) = true.
Proof.
  each_char c; intros H; vm_compute in H; try discriminate H; vm_compute; repeat split; reflexivity.
Qed.

Lemma stoul_two_hex_digits x y :
  hex_digit x = true -> hex_digit y = true ->
  stoul (String x (String y EmptyString)) 16 = Ok (16 * hex_value x + hex_value y).
Proof.
  intros Hx Hy.
  destruct (hex_digit_cases x Hx) as (X0 & X1 & X2 & X3 & X4 & X5).
  destruct (hex_digit_cases y Hy) as (Y0 & Y1 & Y2 & Y3 & Y4 & Y5).
  unfold stoul, strtoull. simpl skip_space. rewrite X0.
  unfold strip_sign. rewrite X1, X2.
  unfold strip_0x, starts_with_digit.
  fold (hex_digit x). rewrite Hx.
  simpl accumulate. rewrite X4, Y4, X5, Y5.
  apply N.ltb_lt in X5, Y5.
  match goal with
  | |- context [SIZE_MAX <? ?v] =>
      assert ((SIZE_MAX <? v) = false) as ->
        by (apply N.ltb_ge; unfold SIZE_MAX; lia)
  end.
  f_equal. lia.
Qed.

(** Whatever [std::stoul] throws on the two characters after a ['%'],
    [url_decode] throws. *)
Lemma url_decode_throws c1 c2 rest e :
  stoul (String c1 (String c2 EmptyString)) 16 = Throw e ->
  url_decode (String "%" (String c1 (String c2 rest))) = Throw e.
Proof.
  intros H. cbn [url_decode]. change (Ascii.eqb "%" "+") with false. cbv iota.
  rewrite Ascii.eqb_refl, H. reflexivity.
Qed.

End UrlDecode.

(** * Segments and pairs *)

Section Segments.

Lemma getlines_delim d s t :
  Str.find_char d s = None ->
  getlines d (s +:+ String d t) = s :: getlines d t.
Proof.
  induction s as [|c s IH]; simpl; intros H.
  - now rewrite Ascii.eqb_refl.
  - destruct (Ascii.eqb c d); [discriminate|].
    destruct (Str.find_char d s); [discriminate|]. now rewrite IH.
Qed.

Lemma getlines_single d s :
  Str.find_char d s = None -> s <> EmptyString -> getlines d s = [s].
Proof.
  induction s as [|c s IH]; simpl; intros H Hne; [contradiction|].
  destruct (Ascii.eqb c d); [discriminate|].
  destruct (Str.find_char d s); [discriminate|].
  destruct s as [|c' s']; [reflexivity|].
  rewrite IH; [reflexivity | reflexivity | discriminate].
Qed.

(** [getline] is one step of [getlines]. *)
Lemma getlines_getline d s :
  getlines d s =
  match getline d s with
  | Some (seg, rest) => seg :: getlines d rest
  | None => []
  end.
Proof.
  induction s as [|c s IH]; simpl; [reflexivity|].
  destruct (Ascii.eqb c d); [reflexivity|].
  rewrite IH. destruct (getline d s) as [[seg rest]|]; reflexivity.
Qed.

Lemma first_segment_prefix d s seg rest :
  getlines d s = seg :: rest -> exists post, s = seg +:+ post.
Proof.
  revert seg rest; induction s as [|c s IH]; simpl; intros seg rest H; [discriminate|].
  destruct (Ascii.eqb c d).
  - injection H as <- _. exists (String c s). reflexivity.
  - destruct (getlines d s) as [|seg0 rest0] eqn:E.
    + injection H as <- _. destruct s; [|simpl in E; destruct (Ascii.eqb _ _), (getlines _ _); discriminate].
      exists EmptyString. reflexivity.
    + injection H as <- _. destruct (IH _ _ eq_refl) as [post ->].
      exists post. reflexivity.
Qed.

Lemma segment_occurs d s seg :
  In seg (getlines d s) -> exists pre post, s = pre +:+ seg +:+ post.
Proof.
  revert seg; induction s as [|c s IH]; simpl; intros seg H; [contradiction|].
  destruct (Ascii.eqb c d).
  - destruct H as [<-|H].
    + exists EmptyString, (String c s). reflexivity.
    + destruct (IH _ H) as (pre & post & ->). exists (String c pre), post. reflexivity.
  - destruct (getlines d s) as [|seg0 rest] eqn:E.
    + destruct H as [<-|[]].
      destruct s; [|simpl in E; destruct (Ascii.eqb _ _), (getlines _ _); discriminate].
      exists EmptyString, EmptyString. reflexivity.
    + destruct H as [<-|H].
      * destruct (first_segment_prefix _ _ _ _ E) as [post ->].
        exists EmptyString, post. reflexivity.
      * destruct (IH seg (or_intror H)) as (pre & post & ->).
        exists (String c pre), post. reflexivity.
Qed.

End Segments.

Section Pairs.

Implicit Types (m : gmap string string) (k v s : string).

Lemma drop_past_char s c t : Str.drop (S (String.length s)) (s +:+ String c t) = t.
Proof. induction s; simpl; [reflexivity | assumption]. Qed.

Lemma store_pair_text m k v :
  Str.find_char "=" k = None -> store_pair m (k +:+ String "=" v) = <[k := v]> m.
Proof.
  intros H. unfold store_pair.
  now rewrite find_char_app, take_app, drop_past_char.
Qed.

Lemma store_pair_other m s k :
  (forall v, s <> k +:+ String "=" v) -> store_pair m s !! k = m !! k.
Proof.
  intros H. unfold store_pair.
  destruct (Str.find_char "=" s) as [i|] eqn:E; [|reflexivity].
  apply find_char_Some in E as (Hs & _ & _).
  apply lookup_insert_ne. intros Hk. apply (H (Str.drop (S i) s)).
  now rewrite <- Hk.
Qed.

Lemma fold_store_other segs m k :
  Forall (fun s => forall v, s <> k +:+ String "=" v) segs ->
  fold_left store_pair segs m !! k = m !! k.
Proof.
  intros H; revert m; induction H as [|s segs Hs _ IH]; intros m; simpl; [reflexivity|].
  now rewrite IH, store_pair_other.
Qed.

Lemma fold_store_origin segs m k v :
  fold_left store_pair segs m !! k = Some v ->
  m !! k = Some v \/ In (k +:+ String "=" v) segs.
Proof.
  revert m; induction segs as [|s segs IH]; intros m; simpl; [now left|].
  intros H. destruct (IH _ H) as [Hm|Hin]; [|now right; right].
  unfold store_pair in Hm.
  destruct (Str.find_char "=" s) as [i|] eqn:E; [|now left].
  apply find_char_Some in E as (Hs & _ & _).
  destruct (decide (Str.take i s = k)) as [Hk|Hk].
  - rewrite Hk, lookup_insert_eq in Hm. injection Hm as Hv.
    right; left. now rewrite <- Hk, <- Hv.
  - rewrite lookup_insert_ne in Hm by assumption. now left.
Qed.

Lemma concat_cons2 sep x y rest :
  String.concat sep (x :: y :: rest) = x +:+ sep +:+ String.concat sep (y :: rest).
Proof. reflexivity. Qed.

Lemma fold_store_getlines segs m :
  Forall plain_value segs ->
  fold_left store_pair (getlines "&" (String.concat "&" segs)) m
  = fold_left store_pair segs m.
Proof.
  intros H; revert m; induction H as [|x segs Hx Hsegs IH]; intros m; [reflexivity|].
  destruct segs as [|y rest].
  - simpl String.concat. destruct x as [|c x]; [reflexivity|].
    now rewrite getlines_single.
  - rewrite concat_cons2. simpl (String.append "&" _).
    rewrite getlines_delim by exact Hx. simpl. apply IH.
Qed.

Lemma form_pairs_getlines segs m :
  Forall plain_value segs ->
  form_pairs (getlines "&" (String.concat "&" segs)) m = form_pairs segs m.
Proof.
  intros H; revert m; induction H as [|x segs Hx Hsegs IH]; intros m; [reflexivity|].
  destruct segs as [|y rest].
  - simpl String.concat. destruct x as [|c x]; [reflexivity|].
    now rewrite getlines_single.
  - rewrite concat_cons2. simpl (String.append "&" _).
    rewrite getlines_delim by exact Hx. simpl.
    destruct (Str.find_char "=" x); [|apply IH].
    destruct (url_decode _); [|reflexivity]. simpl.
    destruct (url_decode _); [|reflexivity]. simpl. apply IH.
Qed.

Lemma form_pairs_decoded kvs kvs' m :
  Forall (fun kv => Str.find_char "=" (fst kv) = None) kvs ->
  Forall2 (fun kv kv' => url_decode (fst kv) = Ok (fst kv') /\
                         url_decode (snd kv) = Ok (snd kv')) kvs kvs' ->
  form_pairs (map pair_text kvs) m = Ok (fold_left insert_pair kvs' m).
Proof.
  intros Hk H; revert m; induction H as [|[k v] [k' v'] kvs kvs' [H1 H2] _ IH];
    intros m; [reflexivity|].
  inversion Hk as [|? ? Hk1 Hk2]; subst. cbn [fst snd] in *.
  cbn [map form_pairs fold_left]. unfold pair_text at 1 2 3. cbn [fst snd].
  rewrite find_char_app, take_app, drop_past_char by assumption.
  rewrite H1; cbn [rbind]. rewrite H2; cbn [rbind]. now apply IH.
Qed.

Lemma find_char_pair_text c k v :
  c <> "="%char -> Str.find_char c k = None -> Str.find_char c v = None ->
  Str.find_char c (k +:+ String "=" v) = None.
Proof.
  intros Hc Hk Hv. induction k as [|d k IH]; cbn [String.append Str.find_char] in *.
  - destruct (Ascii.eqb_spec "=" c); [congruence|]. rewrite Hv. reflexivity.
  - destruct (Ascii.eqb d c); [discriminate|].
    destruct (Str.find_char c k); [discriminate|]. rewrite IH; reflexivity.
Qed.

Lemma parse_url_split p q :
  Str.find_char "?" p = None ->
  RequestInfo.query (parse_url (p +:+ String "?" q)) = q /\
  RequestInfo.params (parse_url (p +:+ String "?" q))
  = fold_left store_pair (getlines "&" q) ∅.
Proof.
  intros H. unfold parse_url.
  rewrite find_char_app, drop_past_char by assumption. split; reflexivity.
Qed.

Lemma parse_url_params url :
  RequestInfo.params (parse_url url)
  = fold_left store_pair (getlines "&" (RequestInfo.query (parse_url url))) ∅.
Proof. unfold parse_url. destruct (Str.find_char "?" url); reflexivity. Qed.

End Pairs.

(** * Properties of the wire parser *)

(** C8.  Query parsing stores the raw text and lets the last pair win: in
    a query made of the segments [before], [k=v], [after], where no
    segment of [after] assigns [k] again, the mapping binds [k] to [v]
    exactly as written; and any binding of the mapping, for any target,
    occurs verbatim as [key=value] in the query string. *)
Theorem parse_url_query_last_wins (p k v : string) (before after : list string) :
  Str.find_char "?" p = None ->
  Str.find_char "=" k = None ->
  Forall plain_value (before ++ (k +:+ String "=" v) :: after) ->
  Forall (fun s => forall v', s <> k +:+ String "=" v') after ->
  let query := String.concat "&" (before ++ (k +:+ String "=" v) :: after) in
  let info := parse_url (p +:+ String "?" query) in
  RequestInfo.query info = query /\
  RequestInfo.params info !! k = Some v /\
  forall url k' v',
    RequestInfo.params (parse_url url) !! k' = Some v' ->
    exists pre post,
      RequestInfo.query (parse_url url) = pre +:+ (k' +:+ String "=" v') +:+ post.
Proof.
  intros Hp Hk Hplain Hafter query info.
  destruct (parse_url_split p query Hp) as [Hq Hm].
  split; [exact Hq|]. split.
  - subst info. rewrite Hm. unfold query.
    rewrite fold_store_getlines by exact Hplain.
    rewrite fold_left_app. simpl.
    rewrite fold_store_other by exact Hafter.
    rewrite store_pair_text by exact Hk. apply lookup_insert_eq.
  - intros url k' v' H. rewrite parse_url_params in H.
    apply fold_store_origin in H as [H|H]; [rewrite lookup_empty in H; discriminate|].
    now apply segment_occurs in H.
Qed.

Lemma parse_url_query_last_wins_witness :
  let info := parse_url "/search?x=1&x=a+b%20&y=2" in
  RequestInfo.query info = "x=1&x=a+b%20&y=2" /\
  RequestInfo.params info !! "x" = Some "a+b%20".
Proof.
  pose proof (parse_url_query_last_wins "/search" "x" "a+b%20" ["x=1"] ["y=2"]) as H.
  simpl in H. destruct H as (H1 & H2 & _).
  - reflexivity.
  - reflexivity.
  - repeat constructor.
  - repeat constructor. intros v'. discriminate.
  - split; assumption.
Defined.

(** C7.  The decoder turns ['+'] into a space and ['%'] followed by two
    hexadecimal digits into the byte they denote; a ['%'] with fewer than
    two characters after it is copied as it stands; every other character
    is copied.  [parse_form_body] decodes the key and the value of every
    pair, so [name=Ann+Lee&age=5] gives exactly name -> "Ann Lee",
    age -> "5". *)
Theorem url_decode_form_body (x y c : ascii) (rest : string)
    (kvs kvs' : list (string * string)) (info : RequestInfo.t) :
  hex_digit x = true -> hex_digit y = true ->
  c <> "+"%char -> c <> "%"%char ->
  Forall (fun kv => plain_key (fst kv) /\ plain_value (snd kv)) kvs ->
  Forall2 (fun kv kv' => url_decode (fst kv) = Ok (fst kv') /\
                         url_decode (snd kv) = Ok (snd kv')) kvs kvs' ->
  url_decode (String "+" rest) = rmap (String " ") (url_decode rest) /\
  url_decode (String "%" (String x (String y rest)))
    = rmap (String (chr (16 * hex_value x + hex_value y))) (url_decode rest) /\
  url_decode "%" = Ok "%" /\
  url_decode "a%4" = Ok "a%4" /\
  (forall d, url_decode (String "%" (String d EmptyString))
             = rmap (String "%") (url_decode (String d EmptyString))) /\
  url_decode (String c rest) = rmap (String c) (url_decode rest) /\
  parse_form_body (encode_pairs kvs) info
    = Ok (RequestInfo.set_params
            (fold_left insert_pair kvs' (RequestInfo.params info)) info) /\
  rmap RequestInfo.params (parse_form_body "name=Ann+Lee&age=5" (parse_url "/greet"))
    = Ok {[ "name" := "Ann Lee"; "age" := "5" ]}.
Proof.
  intros Hx Hy Hplus Hpct Hplain Hdec.
  split; [reflexivity|]. split.
  { cbn [url_decode]. change (Ascii.eqb "%" "+") with false. cbv iota.
    rewrite Ascii.eqb_refl, stoul_two_hex_digits by assumption. cbn [rbind].
    unfold to_char. rewrite N.mod_small; [reflexivity|].
    destruct (hex_digit_cases x Hx) as (_ & _ & _ & _ & _ & X).
    destruct (hex_digit_cases y Hy) as (_ & _ & _ & _ & _ & Y).
    apply N.ltb_lt in X, Y. lia. }
  split; [reflexivity|]. split; [reflexivity|]. split; [intros d; reflexivity|]. split.
  { cbn [url_decode].
    apply Ascii.eqb_neq in Hplus, Hpct. rewrite Hplus, Hpct.
    destruct rest as [|h1 [|h2 r]]; reflexivity. }
  split.
  { unfold parse_form_body, encode_pairs.
    rewrite form_pairs_getlines.
    - rewrite (form_pairs_decoded kvs kvs'); [reflexivity | | exact Hdec].
      eapply Forall_impl; [exact Hplain|]. intros kv [[H _] _]. exact H.
    - apply Forall_map. eapply Forall_impl; [exact Hplain|].
      intros [k v] [[_ H1] H2]. unfold plain_value, pair_text.
      apply find_char_pair_text; [discriminate | exact H1 | exact H2]. }
  vm_compute. reflexivity.
Qed.

Lemma url_decode_form_body_witness :
  url_decode "%41+" = Ok "A " /\
  parse_form_body "a%2Bb=c+d" (parse_url "/chat")
  = Ok (RequestInfo.set_params {[ "a+b" := "c d" ]} (parse_url "/chat")).
Proof.
  destruct (url_decode_form_body "4" "1" "a" "+" [("a%2Bb", "c+d")] [("a+b", "c d")]
              (parse_url "/chat")) as (_ & H2 & _ & _ & _ & _ & H6 & _).
  - reflexivity.
  - reflexivity.
  - discriminate.
  - discriminate.
  - repeat constructor.
  - repeat constructor.
  - split; [exact H2 | exact H6].
Defined.

(** C3.  [url_decode] is not total: on ["%zz"] the call to [std::stoul]
    finds no digit and throws; a form body carries that input to it, and
    a POST request carries the form body, so the pass of the session ends
    in the exception before anything is transmitted. *)
Theorem url_decode_throws_on_non_hex
    (fs : string -> option string) (routes : gmap string (RequestInfo.t -> Response.t)) :
  let request :=
    "POST /chat HTTP/1.1" +:+ CRLF
      +:+ "Content-Type: application/x-www-form-urlencoded" +:+ CRLF
      +:+ "Content-Length: 8" +:+ CRLF +:+ CRLF +:+ "name=%zz" in
  url_decode "%zz" = Throw invalid_argument /\
  parse_form_body "name=%zz" (parse_url "/chat") = Throw invalid_argument /\
  handle_request fs routes (mkWorld [request] [])
  = (Throw invalid_argument,
     mkWorld [] [EvRead ServerConstants.MAX_READ_BUFFER (Some request)]).
Proof. repeat split; vm_compute; reflexivity. Qed.

(** * Path normalization *)

(** C10.  The empty path, "/", "public" and "public/" become the index
    document; a leading "public/" is removed from anything longer; and
    the targets "/index.html" and "/public/index.html" both get the
    routing key "index.html". *)
Theorem path_normalization (r : string) :
  normalize_path EmptyString = "index.html" /\
  normalize_path "/" = "index.html" /\
  normalize_path "public" = "index.html" /\
  normalize_path "public/" = "index.html" /\
  normalize_path ("public/" +:+ r)
    = (if String.eqb r EmptyString then "index.html" else r) /\
  routing_key EmptyString = "index.html" /\
  routing_key "/" = "index.html" /\
  routing_key "/public" = "index.html" /\
  routing_key "/public/" = "index.html" /\
  routing_key "/index.html" = "index.html" /\
  routing_key "/public/index.html" = "index.html".
Proof.
  repeat split; try reflexivity.
  destruct r as [|c r]; [reflexivity|].
  unfold normalize_path. simpl. reflexivity.
Qed.

(** * The response serializer *)

Section Serializer.

Lemma put_headers_lines oss hs :
  Response.put_headers oss hs = oss +:+ header_lines hs.
Proof.
  revert oss; induction hs as [|[k v] hs IH]; intros oss; simpl.
  - now rewrite app_empty_r.
  - rewrite IH, !app_assoc. reflexivity.
Qed.

Lemma read_put_size n : read_size (Response.put_size n) = Some n.
Proof.
  unfold read_size, Response.put_size.
  destruct n as [|p]; [reflexivity|].
  cbn [N.to_uint]. rewrite NilZero.usu by apply DecimalPos.Unsigned.to_uint_nonnil.
  cbn [option_map N.of_uint]. now rewrite DecimalPos.Unsigned.of_to.
Qed.

Lemma to_string_as_layout r :
  Response.to_string r
  = layout r (Response.put_size (Str.len (Response.body r)))
           (if Response.keep_alive r then "keep-alive" else "close").
Proof.
  unfold Response.to_string, layout. rewrite put_headers_lines.
  cbn [String.append]. rewrite !app_assoc. reflexivity.
Qed.

End Serializer.

(** C5.  The serialized response is the status line, then Content-Type,
    Content-Length and Connection in that order, then the additional
    headers, a blank line and the body as it is; the Content-Length
    numeral denotes the length of the body, and the Connection value is
    keep-alive or close according to the flag. *)
Theorem to_string_layout (r : Response.t) :
  exists digits,
    Response.to_string r
    = "HTTP/1.1 " +:+ Response.put_int (Response.status_code r) +:+ " "
        +:+ Response.status_text r +:+ CRLF
      +:+ "Content-Type: " +:+ Response.content_type r +:+ CRLF
      +:+ "Content-Length: " +:+ digits +:+ CRLF
      +:+ "Connection: "
        +:+ (if Response.keep_alive r then "keep-alive" else "close") +:+ CRLF
      +:+ header_lines (Response.headers r)
      +:+ CRLF
      +:+ Response.body r
    /\ read_size digits = Some (Str.len (Response.body r)).
Proof.
  exists (Response.put_size (Str.len (Response.body r))).
  split; [apply to_string_as_layout | apply read_put_size].
Qed.

(** * Header extraction *)

Section Headers.

Lemma length_lowercase s : String.length (lowercase s) = String.length s.
Proof. induction s; simpl; congruence. Qed.

Lemma matches_at_ci_iff target s :
  Str.matches_at ci_char_compare target s = true <->
  exists name post, s = name +:+ post /\ same_ignoring_case name target.
Proof.
  unfold same_ignoring_case.
  revert s; induction target as [|a t IH]; intros s; cbn [Str.matches_at].
  - split; [|reflexivity]. intros _. exists EmptyString, s. split; reflexivity.
  - destruct s as [|b s].
    + split; [discriminate|]. intros (name & post & H & Hl).
      destruct name; [discriminate Hl | discriminate H].
    + rewrite andb_true_iff, IH. unfold ci_char_compare. rewrite Ascii.eqb_eq. split.
      * intros (Hc & name & post & -> & Hl).
        exists (String b name), post. split; [reflexivity|]. simpl. congruence.
      * intros (name & post & H & Hl).
        destruct name as [|b' name]; [discriminate Hl|].
        simpl in H, Hl. injection H as <- ->. injection Hl as Hc Hl.
        split; [exact Hc|]. exists name, post. split; [reflexivity | exact Hl].
Qed.

Lemma skip_separators_spec s :
  exists seps,
    s = seps +:+ skip_separators s /\ all_separators seps = true /\
    forall c r, skip_separators s = String c r -> c <> " "%char /\ c <> ":"%char.
Proof.
  induction s as [|c s (seps & H1 & H2 & H3)]; cbn [skip_separators].
  - exists EmptyString. repeat split; discriminate.
  - destruct (Ascii.eqb c " " || Ascii.eqb c ":") eqn:E.
    + exists (String c seps). split; [simpl; congruence|].
      split; [cbn [all_separators]; now rewrite E | exact H3].
    + exists EmptyString. split; [reflexivity|]. split; [reflexivity|].
      intros c' r [= <- <-]. apply orb_false_iff in E as [E1 E2].
      apply Ascii.eqb_neq in E1, E2. now split.
Qed.

Lemma until_cr_spec s :
  exists rest,
    s = until_cr s +:+ rest /\ Str.find_char CR (until_cr s) = None /\
    (rest = EmptyString \/ exists r, rest = String CR r).
Proof.
  induction s as [|c s (rest & H1 & H2 & H3)]; cbn [until_cr].
  - exists EmptyString. repeat split. now left.
  - destruct (Ascii.eqb_spec c CR) as [->|Hne].
    + exists (String CR s). repeat split. right. now exists s.
    + exists rest. split; [simpl; congruence|]. split; [|exact H3].
      cbn [Str.find_char]. apply Ascii.eqb_neq in Hne. now rewrite Hne, H2.
Qed.

End Headers.

(** C9.  Within the range in front of the header/body boundary,
    [extract_header_value] answers the empty string when the name does not
    occur, whatever the case of its letters.  When it occurs, the answer
    is the text that follows the first occurrence and the spaces and
    colons after it, up to the carriage return that ends the line: the
    range ends there or goes on with that carriage return, and when the
    boundary is the delimiter itself the value is followed by a carriage
    return in the request. *)
Theorem extract_header_value_spec (full_data target : string) (max_pos : nat) :
  (max_pos <= String.length full_data)%nat ->
  let headers := Str.take max_pos full_data in
  let value := extract_header_value full_data max_pos target in
  (~ occurs_ignoring_case target headers -> value = EmptyString) /\
  (occurs_ignoring_case target headers ->
   exists pre name seps rest,
     headers = pre +:+ name +:+ seps +:+ value +:+ rest /\
     same_ignoring_case name target /\
     (forall pre' name' post',
        headers = pre' +:+ name' +:+ post' -> same_ignoring_case name' target ->
        (String.length pre <= String.length pre')%nat) /\
     all_separators seps = true /\
     (forall c r, value +:+ rest = String c r -> c <> " "%char /\ c <> ":"%char) /\
     Str.find_char CR value = None /\
     (rest = EmptyString \/ exists r, rest = String CR r) /\
     (forall tail, Str.drop max_pos full_data = String CR tail ->
        exists rest', full_data = pre +:+ name +:+ seps +:+ value +:+ String CR rest')).
Proof.
  intros Hmax headers value. unfold value, extract_header_value. fold headers.
  split.
  - intros Habsent.
    destruct (Str.search ci_char_compare target headers) as [i|] eqn:E; [|reflexivity].
    exfalso. apply Habsent. apply search_Some in E as (Hm & _ & _).
    apply matches_at_ci_iff in Hm as (name & post & Hd & Hl).
    exists (Str.take i headers), name, post. split; [|exact Hl].
    now rewrite <- Hd, take_drop.
  - intros (pre0 & name0 & post0 & Hocc & Hl0).
    assert (Str.matches_at ci_char_compare target (Str.drop (String.length pre0) headers)
            = true) as Hm0.
    { rewrite Hocc, drop_app. apply matches_at_ci_iff. eauto. }
    destruct (Str.search ci_char_compare target headers) as [i|] eqn:E.
    2:{ pose proof (search_None _ _ _ E (String.length pre0)). congruence. }
    apply search_Some in E as (Hm & Hi & Hfirst).
    assert (forall pre' name' post',
              headers = pre' +:+ name' +:+ post' -> same_ignoring_case name' target ->
              (i <= String.length pre')%nat) as Hmin.
    { intros pre' name' post' H Hl.
      destruct (Nat.le_gt_cases i (String.length pre')) as [|Hlt]; [assumption|].
      specialize (Hfirst _ Hlt). rewrite H, drop_app in Hfirst.
      assert (Str.matches_at ci_char_compare target (name' +:+ post') = true)
        by (apply matches_at_ci_iff; eauto).
      congruence. }
    apply matches_at_ci_iff in Hm as (name & post & Hd & Hl).
    assert (String.length name = String.length target) as Hlen.
    { rewrite <- (length_lowercase name), <- (length_lowercase target). now f_equal. }
    assert (headers = Str.take i headers +:+ name +:+ post) as Hsplit
      by now rewrite <- Hd, take_drop.
    assert (String.length (Str.take i headers) = i) as Hpre by now apply length_take.
    assert (forall tail, Str.drop max_pos full_data = String CR tail ->
            forall front, headers = front ->
            full_data = front +:+ String CR tail) as Hfull.
    { intros tail Ht front <-. unfold headers. now rewrite <- Ht, take_drop. }
    destruct (Nat.eqb_spec i (String.length headers)) as [Hend|Hin].
    + (* only the empty name can be found at the end of the range *)
      assert (name = EmptyString /\ post = EmptyString) as [-> ->].
      { rewrite Hend, drop_all in Hd. destruct name; [|discriminate Hd].
        destruct post; [now split | discriminate Hd]. }
      exists (Str.take i headers), EmptyString, EmptyString, EmptyString.
      cbn [String.append]. rewrite !app_empty_r.
      split; [now rewrite app_empty_r in Hsplit|].
      split; [exact Hl|]. split; [now rewrite Hpre|]. split; [reflexivity|].
      split; [discriminate|]. split; [reflexivity|]. split; [now left|].
      intros tail Ht. exists tail. apply (Hfull _ Ht).
      now rewrite app_empty_r in Hsplit.
    + rewrite <- Hlen, <- drop_drop, Hd, drop_app.
      destruct (skip_separators_spec post) as (seps & Hs1 & Hs2 & Hs3).
      destruct (until_cr_spec (skip_separators post)) as (rest & Hv1 & Hv2 & Hv3).
      exists (Str.take i headers), name, seps, rest.
      split; [now rewrite <- Hv1, <- Hs1|].
      split; [exact Hl|]. split; [now rewrite Hpre|]. split; [exact Hs2|].
      split; [now rewrite <- Hv1|]. split; [exact Hv2|]. split; [exact Hv3|].
      intros tail Ht.
      assert (headers = Str.take i headers +:+ name +:+ seps
                        +:+ until_cr (skip_separators post) +:+ rest) as Hh
        by now rewrite <- Hv1, <- Hs1.
      destruct Hv3 as [-> | [r ->]].
      * exists tail. etransitivity; [apply (Hfull _ Ht _ Hh)|].
        rewrite !app_assoc. reflexivity.
      * exists (r +:+ String CR tail). etransitivity; [apply (Hfull _ Ht _ Hh)|].
        rewrite !app_assoc. reflexivity.
Qed.

Lemma extract_header_value_spec_witness :
  exists pre name seps rest,
    "GET / HTTP/1.1" +:+ CRLF +:+ "connection:  close" +:+ CRLF +:+ "Host: a"
    = pre +:+ name +:+ seps +:+ "close" +:+ rest /\
    same_ignoring_case name "Connection:" /\
    (rest = EmptyString \/ exists r, rest = String CR r).
Proof.
  destruct (extract_header_value_spec
              ("GET / HTTP/1.1" +:+ CRLF +:+ "connection:  close" +:+ CRLF +:+ "Host: a"
                 +:+ CRLF +:+ CRLF +:+ "body")
              "Connection:" 43) as [_ H].
  - vm_compute. lia.
  - destruct H as (pre & name & seps & rest & H1 & H2 & _ & _ & _ & _ & H7 & _).
    + exists ("GET / HTTP/1.1" +:+ CRLF), "connection:", ("  close" +:+ CRLF +:+ "Host: a").
      split; reflexivity.
    + exists pre, name, seps, rest. split; [exact H1|]. split; [exact H2 | exact H7].
Defined.

(** * The connection session *)

Create HintDb session discriminated.

(** Walks down a computation: through each bind, into each branch, and
    closes the leaves from the [session] hints. *)
Tactic Notation "walk" uconstr(through_bind) :=
  repeat first
    [ solve [auto with session]
    | apply through_bind; [|intros ?]
    | match goal with
      | |- _ (if ?b then _ else _) => destruct b
      | |- _ (match ?o with Some _ => _ | None => _ end) => destruct o
      | |- _ (let (_, _) := ?p in _) => destruct p
      end ].

Section SessionFacts.

Variable fs : string -> option string.
Variable routes : gmap string (RequestInfo.t -> Response.t).

Lemma sent_app evs evs' : sent (evs ++ evs') = sent evs ++ sent evs'.
Proof.
  induction evs as [|e evs IH]; [reflexivity|].
  destruct e; simpl; now rewrite IH.
Qed.

Lemma silent_ret {A} (a : A) : silent (ret a).
Proof. intros w r w' [= <- <-]. exists []. now rewrite app_nil_r. Qed.

Lemma silent_lift {A} (r : Result A) : silent (lift r).
Proof. intros w r' w' [= <- <-]. exists []. now rewrite app_nil_r. Qed.

Lemma silent_bind {A B} (m : M A) (k : A -> M B) :
  silent m -> (forall a, silent (k a)) -> silent (bind m k).
Proof.
  intros Hm Hk w r w' H. unfold bind in H.
  destruct (m w) as [[a|e] w1] eqn:E.
  - destruct (Hm _ _ _ E) as (evs1 & T1 & S1).
    destruct (Hk a _ _ _ H) as (evs2 & T2 & S2).
    exists (evs1 ++ evs2). rewrite T2, T1, sent_app, S1, S2, <- List.app_assoc.
    now split.
  - injection H as <- <-. eauto.
Qed.

Lemma silent_sock_read count : silent (sock_read count).
Proof.
  intros w r w' H. unfold sock_read in H.
  destruct (inbox w) as [|pkt rest].
  - injection H as <- <-. eexists; split; reflexivity.
  - destruct (String.eqb _ _); injection H as <- <-; eexists; split; reflexivity.
Qed.

Lemma silent_open_file path : silent (open_file fs path).
Proof. intros w r w' [= <- <-]. eexists; split; reflexivity. Qed.

#[local] Hint Resolve silent_ret silent_lift silent_sock_read silent_open_file : session.

Lemma silent_read_body fuel content_length requestData current_body_len :
  silent (read_body fuel content_length requestData current_body_len).
Proof.
  revert requestData current_body_len; induction fuel as [|fuel IH];
    intros requestData current_body_len; cbn [read_body];
    walk silent_bind.
Qed.

#[local] Hint Resolve silent_read_body : session.

Lemma silent_handle_static_file path : silent (handle_static_file fs path).
Proof. unfold handle_static_file. walk silent_bind. Qed.

Lemma silent_read_payload requestData body_pos req :
  silent (read_payload requestData body_pos req).
Proof. unfold read_payload. walk silent_bind. Qed.

Lemma silent_parse_body requestData body_pos req :
  silent (parse_body requestData body_pos req).
Proof. unfold parse_body. walk silent_bind. Qed.

Lemma silent_dispatch req : silent (dispatch fs routes req).
Proof. unfold dispatch, handle_static_file. walk silent_bind. Qed.

#[local] Hint Resolve silent_read_payload silent_parse_body silent_dispatch : session.

Lemma silent_serve requestData body_pos req :
  silent (serve fs routes requestData body_pos req).
Proof. unfold serve. walk silent_bind. Qed.

(** What a pass leaves behind: nothing transmitted unless it ends with a
    response, and then exactly that response, finalized. *)
Lemma handle_request_shape w r w' :
  handle_request fs routes w = (r, w') ->
  exists evs, trace w' = trace w ++ evs /\
    match r with
    | Ok (Some (req, res)) =>
        exists res0 evs0,
          res = finalize req res0 /\ sent evs0 = [] /\
          evs = evs0 ++ [EvSend (Response.to_string res);
                         EvLog (RequestInfo.method req) (RequestInfo.path req)
                               (Response.status_code res) (Response.status_text res)]
    | _ => sent evs = []
    end.
Proof.
  intros H. unfold handle_request in H. unfold bind at 1 in H.
  destruct (sock_read _ w) as [[[requestData|]|e] w1] eqn:E1;
    destruct (silent_sock_read _ _ _ _ E1) as (evs1 & T1 & S1).
  2,3: injection H as <- <-; eauto.
  destruct (Str.find _ requestData) as [body_pos|].
  2: injection H as <- <-; eauto.
  unfold bind at 1, lift in H.
  destruct (parse_request_line requestData) as [req0|e].
  2: injection H as <- <-; eauto.
  unfold bind at 1 in H.
  destruct (serve _ _ _ _ _ w1) as [[[req res0]|e] w2] eqn:E2;
    destruct (silent_serve _ _ _ _ _ _ E2) as (evs2 & T2 & S2).
  2: { injection H as <- <-. exists (evs1 ++ evs2).
       rewrite T2, T1, <- List.app_assoc, sent_app, S1, S2. now split. }
  unfold respond, bind, emit, ret in H. cbn in H. injection H as <- <-.
  cbn [trace]. eexists. split.
  - rewrite T2, T1, <- !List.app_assoc. reflexivity.
  - exists res0, (evs1 ++ evs2). rewrite sent_app, S1, S2, <- List.app_assoc.
    repeat split.
Qed.

End SessionFacts.

Section SessionFlow.

Variable fs : string -> option string.
Variable routes : gmap string (RequestInfo.t -> Response.t).

Lemma finalize_keep_alive req res :
  Response.keep_alive (finalize req res)
  = RequestInfo.keep_alive req && negb (400 <=? Response.status_code res)%Z.
Proof.
  unfold finalize. cbn [Response.set_keep_alive Response.status_code].
  destruct (400 <=? Response.status_code res)%Z; cbn; [now rewrite andb_false_r|].
  now rewrite andb_true_r.
Qed.

Lemma finalize_status_code req res :
  Response.status_code (finalize req res) = Response.status_code res.
Proof.
  unfold finalize. cbn [Response.set_keep_alive Response.status_code].
  now destruct (400 <=? Response.status_code res)%Z.
Qed.

Lemma sock_read_trace count w data w1 :
  sock_read count w = (Ok (Some data), w1) ->
  trace w1 = trace w ++ [EvRead count (Some data)].
Proof.
  unfold sock_read. destruct (inbox w) as [|pkt rest]; [discriminate|].
  destruct (String.eqb _ _); [discriminate|]. now intros [= <- <-].
Qed.

(** The two [substr] calls of the request line stay in range. *)
Lemma parse_request_line_ok requestData :
  exists req, parse_request_line requestData = Ok req.
Proof.
  unfold parse_request_line.
  set (first_space := find_char_from " " requestData 0).
  assert ((Str.len requestData <? 0) = false) as H0 by (apply N.ltb_ge; lia).
  assert ((Str.len requestData <? size_add first_space 1) = false) as Hin.
  { apply N.ltb_ge. unfold first_space, find_char_from.
    rewrite H0. change (N.to_nat 0) with O. cbn [Str.drop].
    destruct (Str.find_char " " requestData) as [i|] eqn:E.
    - apply find_char_Some in E as (_ & _ & Hi).
      unfold size_add. etransitivity; [apply N.Div0.mod_le|]. unfold Str.len. lia.
    - change (size_add npos 1) with 0. lia. }
  unfold substr at 1. rewrite H0. cbn [rbind].
  unfold substr. rewrite Hin. cbn [rbind]. eauto.
Qed.

Lemma stoull_empty : stoull EmptyString = Throw invalid_argument.
Proof. reflexivity. Qed.





(** A declared length above the limit that [std::stoull] can represent is
    answered with 413 after the one read that brought the headers. *)
Lemma oversized_payload_rejected w w1 requestData body_pos content_length :
  sock_read ServerConstants.MAX_READ_BUFFER w = (Ok (Some requestData), w1) ->
  Str.find ServerConstants.HTTP_DELIM requestData = Some body_pos ->
  stoull (extract_header_value requestData body_pos ServerConstants.HDR_CONTENT_LEN)
  = Ok content_length ->
  MAX_PAYLOAD_SIZE < content_length ->
  exists req res,
    handle_request fs routes w
    = (Ok (Some (req, res)),
       mkWorld (inbox w1)
         (trace w ++ [EvRead ServerConstants.MAX_READ_BUFFER (Some requestData);
                      EvSend (Response.to_string res);
                      EvLog (RequestInfo.method req) (RequestInfo.path req)
                            413 "Payload Too Large"])) /\
    Response.status_code res = 413%Z /\
    Response.body res = "Payload exceeds limits." /\
    Response.keep_alive res = false.
Proof.
  intros Hread Hfind Hlen Hbig.
  destruct (parse_request_line_ok requestData) as [req0 Hline].
  unfold handle_request. unfold bind at 1. rewrite Hread, Hfind.
  unfold bind at 1, lift. rewrite Hline.
  unfold bind at 1, serve. unfold bind at 1, read_payload.
  destruct (String.eqb_spec
              (extract_header_value requestData body_pos ServerConstants.HDR_CONTENT_LEN)
              EmptyString) as [E|_].
  { rewrite E, stoull_empty in Hlen. discriminate. }
  unfold bind at 1, lift. rewrite Hlen.
  apply N.ltb_lt in Hbig. rewrite Hbig.
  set (req := connection_header requestData body_pos req0).
  exists req, (Response.mk 413 "Payload Too Large" "text/plain"
                 "Payload exceeds limits." [] false).
  split; [|repeat split].
  cbv beta iota delta [ret bind respond emit negb]. cbn [trace inbox].
  rewrite (sock_read_trace _ _ _ _ Hread), <- !List.app_assoc. reflexivity.
Qed.

End SessionFlow.

(** * Properties of the session *)

(** C1.  A requested path with ".." anywhere in it gets 403 from the
    static resolver, whatever the file system holds, and the world is
    left as it was: no file is opened. *)
Theorem traversal_forbidden (fs : string -> option string)
    (requested_path : string) (w : World) :
  (exists pre post, requested_path = pre +:+ ".." +:+ post) ->
  exists res,
    handle_static_file fs requested_path w = (Ok res, w) /\
    Response.status_code res = 403%Z.
Proof.
  intros H. apply contains_iff in H. unfold handle_static_file. rewrite H.
  eexists. split; reflexivity.
Qed.

Lemma traversal_forbidden_witness :
  exists res,
    handle_static_file (fun _ => Some "secret") "img/../../etc/passwd" (mkWorld [] [])
    = (Ok res, mkWorld [] []) /\
    Response.status_code res = 403%Z.
Proof.
  apply (traversal_forbidden (fun _ => Some "secret") "img/../../etc/passwd").
  exists "img/", "/../etc/passwd". reflexivity.
Defined.

(** C2.  A declared length of 2^64 is above the limit, yet the pass ends
    in the exception [std::stoull] throws: nothing is transmitted and the
    session never reaches the point where it closes the socket. *)
Theorem oversized_length_out_of_range
    (fs : string -> option string) (routes : gmap string (RequestInfo.t -> Response.t)) :
  let request :=
    "POST /chat HTTP/1.1" +:+ CRLF
      +:+ "Content-Length: 18446744073709551616" +:+ CRLF +:+ CRLF in
  let after_read := mkWorld [] [EvRead ServerConstants.MAX_READ_BUFFER (Some request)] in
  handle_request fs routes (mkWorld [request] []) = (Throw out_of_range, after_read) /\
  handle_client fs routes (mkWorld [request] []) = (Throw out_of_range, after_read).
Proof. split; vm_compute; reflexivity. Qed.

(** C4.  "Connection: CLOSE" does not switch keep-alive off: the pass ends
    with the flag set on the request and on the response, and the session
    goes on to read from the socket again before closing it. *)
Theorem uppercase_close_keeps_alive :
  let request :=
    "GET / HTTP/1.1" +:+ CRLF +:+ "Connection: CLOSE" +:+ CRLF +:+ CRLF in
  let fs := fun path => if String.eqb path "public/index.html" then Some "hi" else None in
  let w := mkWorld [request] [] in
  exists req res w',
    handle_request fs ∅ w = (Ok (Some (req, res)), w') /\
    RequestInfo.keep_alive req = true /\ Response.keep_alive res = true /\
    handle_client fs ∅ w
    = (Ok tt,
       mkWorld [] [EvRead ServerConstants.MAX_READ_BUFFER (Some request);
                   EvOpen "public/index.html";
                   EvSend (Response.to_string res);
                   EvLog "GET" "index.html" 200 "OK";
                   EvRead ServerConstants.MAX_READ_BUFFER None; EvClose]).
Proof.
  eexists _, _, _. split; [vm_compute; reflexivity|].
  split; [reflexivity|]. split; [reflexivity|]. vm_compute. reflexivity.
Qed.

(** C6.  Whatever a pass transmits is the response it ends with; that
    response carries the request's keep-alive flag, except that a status
    of 400 or more clears it, and it is then serialized with
    "Connection: close".  The flag the handler left on its response plays
    no part. *)
Theorem every_response_finalized
    (fs : string -> option string) (routes : gmap string (RequestInfo.t -> Response.t))
    (w w' : World) (r : Result (option (RequestInfo.t * Response.t))) :
  handle_request fs routes w = (r, w') ->
  exists evs, trace w' = trace w ++ evs /\
    forall raw, In raw (sent evs) ->
      exists req res,
        r = Ok (Some (req, res)) /\ raw = Response.to_string res /\
        Response.keep_alive res
        = RequestInfo.keep_alive req && negb (400 <=? Response.status_code res)%Z /\
        ((400 <= Response.status_code res)%Z ->
         raw = layout res (Response.put_size (Str.len (Response.body res))) "close") /\
        exists res0,
          res = finalize req res0 /\
          forall flag, finalize req (Response.set_keep_alive flag res0) = res.
Proof.
  intros H. apply handle_request_shape in H as (evs & T & Hr).
  exists evs. split; [exact T|]. intros raw Hraw.
  destruct r as [[[req res]|]|e]; try (rewrite Hr in Hraw; contradiction).
  destruct Hr as (res0 & evs0 & Hres & S0 & ->).
  rewrite sent_app, S0 in Hraw. cbn in Hraw. destruct Hraw as [<-|[]].
  exists req, res. split; [reflexivity|]. split; [reflexivity|].
  assert (Response.keep_alive res
          = RequestInfo.keep_alive req && negb (400 <=? Response.status_code res)%Z) as Hk.
  { rewrite Hres, finalize_keep_alive, finalize_status_code. reflexivity. }
  split; [exact Hk|]. split.
  - intros Hbad. rewrite to_string_as_layout, Hk.
    apply Z.leb_le in Hbad. rewrite Hbad, andb_false_r. reflexivity.
  - exists res0. split; [exact Hres|]. intros flag. rewrite Hres. reflexivity.
Qed.

Lemma every_response_finalized_witness :
  let request := "GET /missing.css HTTP/1.1" +:+ CRLF +:+ "Host: a" +:+ CRLF +:+ CRLF in
  let routes : gmap string (RequestInfo.t -> Response.t) := ∅ in
  let w := mkWorld [request] [] in
  exists r w', handle_request (fun _ => None) routes w = (r, w') /\
  exists evs, trace w' = trace w ++ evs /\
    forall raw, In raw (sent evs) ->
      exists req res,
        r = Ok (Some (req, res)) /\ raw = Response.to_string res /\
        Response.keep_alive res
        = RequestInfo.keep_alive req && negb (400 <=? Response.status_code res)%Z /\
        ((400 <= Response.status_code res)%Z ->
         raw = layout res (Response.put_size (Str.len (Response.body res))) "close") /\
        exists res0,
          res = finalize req res0 /\
          forall flag, finalize req (Response.set_keep_alive flag res0) = res.
Proof.
  intros request routes w. eexists _, _. split; [vm_compute; reflexivity|].
  apply (every_response_finalized (fun _ => None) routes w).
  vm_compute. reflexivity.
Defined.

(** * The fuel of the two loops is enough *)

Section Fuel.

Variable fs : string -> option string.
Variable routes : gmap string (RequestInfo.t -> Response.t).

Lemma length_take_drop n s :
  (String.length (Str.take n s) + String.length (Str.drop n s))%nat = String.length s.
Proof. now rewrite <- length_app, take_drop. Qed.

Lemma sock_read_some count w got w' :
  sock_read count w = (Ok (Some got), w') ->
  (0 < String.length got)%nat /\ (pending w' < pending w)%nat.
Proof.
  unfold sock_read, pending. destruct (inbox w) as [|pkt rest]; [discriminate|].
  destruct (String.eqb_spec (Str.take (N.to_nat count) pkt) EmptyString) as [|Hne];
    [discriminate|].
  intros [= <- <-]. cbn [inbox].
  pose proof (length_take_drop (N.to_nat count) pkt) as Hlen.
  assert (0 < String.length (Str.take (N.to_nat count) pkt))%nat as Hpos.
  { destruct (Str.take (N.to_nat count) pkt); [contradiction | simpl; lia]. }
  split; [exact Hpos|].
  destruct (String.eqb_spec (Str.drop (N.to_nat count) pkt) EmptyString) as [E|_].
  - rewrite E in Hlen. cbn [queued String.length] in *. lia.
  - cbn [queued] in *. lia.
Qed.

Lemma consuming_sock_read count : consuming (sock_read count).
Proof.
  intros w r w' H. unfold sock_read in H. unfold pending.
  destruct (inbox w) as [|pkt rest] eqn:Ei.
  - injection H as <- <-. cbn. lia.
  - destruct (String.eqb _ _) eqn:E.
    + injection H as <- <-. cbn. lia.
    + assert (sock_read count w = (r, w')) as H'
        by (unfold sock_read; now rewrite Ei, E).
      injection H as <- _. apply sock_read_some in H' as [_ H'].
      unfold pending in H'. rewrite Ei in H'. lia.
Qed.

Lemma consuming_ret {A} (a : A) : consuming (ret a).
Proof. intros w r w' [= <- <-]. lia. Qed.

Lemma consuming_lift {A} (r : Result A) : consuming (lift r).
Proof. intros w r' w' [= <- <-]. lia. Qed.

Lemma consuming_emit e : consuming (emit e).
Proof. intros w r w' [= <- <-]. unfold pending. cbn. lia. Qed.

Lemma consuming_bind {A B} (m : M A) (k : A -> M B) :
  consuming m -> (forall a, consuming (k a)) -> consuming (bind m k).
Proof.
  intros Hm Hk w r w' H. unfold bind in H.
  destruct (m w) as [[a|e] w1] eqn:E.
  - apply Hm in E. apply Hk in H. lia.
  - injection H as <- <-. now apply Hm in E.
Qed.

#[local] Hint Resolve consuming_ret consuming_lift consuming_emit consuming_sock_read : session.

Lemma consuming_read_body fuel content_length requestData current_body_len :
  consuming (read_body fuel content_length requestData current_body_len).
Proof.
  revert requestData current_body_len; induction fuel as [|fuel IH];
    intros requestData current_body_len; cbn [read_body];
    walk consuming_bind.
Qed.

#[local] Hint Resolve consuming_read_body : session.

Lemma consuming_serve requestData body_pos req :
  consuming (serve fs routes requestData body_pos req).
Proof.
  unfold serve, read_payload, parse_body, dispatch, handle_static_file, open_file.
  walk consuming_bind.
Qed.

(** The body loop never runs out: any fuel from
    [content_length - current_body_len] upwards gives the same run. *)
Lemma read_body_fuel fuel fuel' content_length requestData current_body_len w :
  (N.to_nat (content_length - current_body_len) <= fuel)%nat ->
  (N.to_nat (content_length - current_body_len) <= fuel')%nat ->
  read_body fuel content_length requestData current_body_len w
  = read_body fuel' content_length requestData current_body_len w.
Proof.
  revert fuel' requestData current_body_len w; induction fuel as [|fuel IH];
    intros fuel' requestData current_body_len w H H'.
  - destruct fuel'; cbn [read_body];
      destruct (N.ltb_spec current_body_len content_length); try reflexivity; lia.
  - destruct fuel' as [|fuel']; cbn [read_body];
      destruct (N.ltb_spec current_body_len content_length); try reflexivity; try lia.
    unfold bind.
    destruct (sock_read _ w) as [[[extra|]|e] w1] eqn:E; try reflexivity.
    apply sock_read_some in E as [Hpos _].
    apply IH; unfold Str.len; lia.
Qed.

(** A pass that responds has taken something from the socket. *)
Lemma handle_request_consumes w p w' :
  handle_request fs routes w = (Ok (Some p), w') -> (pending w' < pending w)%nat.
Proof.
  unfold handle_request. unfold bind at 1.
  destruct (sock_read _ w) as [[[requestData|]|e] w1] eqn:E1; try discriminate.
  apply sock_read_some in E1 as [_ Hlt].
  destruct (Str.find _ requestData) as [body_pos|]; [|discriminate].
  unfold bind at 1, lift. destruct (parse_request_line requestData); [|discriminate].
  unfold bind at 1.
  destruct (serve _ _ _ _ _ w1) as [[[req res]|e] w2] eqn:E2; [|discriminate].
  apply consuming_serve in E2.
  unfold respond, bind, emit, ret. cbn [inbox trace]. intros [= _ <-].
  unfold pending in *. cbn [inbox]. lia.
Qed.

(** The keep-alive loop never runs out either: more passes than there is
    input queued all give the same run. *)
Lemma keep_alive_loop_fuel fuel fuel' w :
  (pending w < fuel)%nat -> (pending w < fuel')%nat ->
  keep_alive_loop fs routes fuel w = keep_alive_loop fs routes fuel' w.
Proof.
  revert fuel' w; induction fuel as [|fuel IH]; intros fuel' w H H'; [lia|].
  destruct fuel' as [|fuel']; [lia|]. cbn [keep_alive_loop]. unfold bind.
  destruct (handle_request fs routes w) as [[[[req res]|]|e] w1] eqn:E; try reflexivity.
  apply handle_request_consumes in E.
  destruct (Response.keep_alive res); [|reflexivity].
  apply IH; lia.
Qed.

(** So the bound [handle_client] starts the loop with is as good as any
    larger one. *)
Lemma handle_client_fuel fuel w :
  (pending w < fuel)%nat ->
  handle_client fs routes w
  = bind (keep_alive_loop fs routes fuel) (fun _ => emit EvClose) w.
Proof.
  intros H. unfold handle_client, bind.
  rewrite (keep_alive_loop_fuel (S (pending w)) fuel) by lia. reflexivity.
Qed.

End Fuel.

(** * Further properties of the wire parser *)

Section DecoderFacts.

Ltac every_char c :=
  destruct c as [[|] [|] [|] [|] [|] [|] [|] [|]].

Lemma url_decode_plain_char c rest :
  c <> "+"%char -> c <> "%"%char ->
  url_decode (String c rest) = rmap (String c) (url_decode rest).
Proof.
  intros Hplus Hpct. cbn [url_decode].
  apply Ascii.eqb_neq in Hplus, Hpct. rewrite Hplus, Hpct.
  destruct rest as [|h1 [|h2 r]]; reflexivity.
Qed.

Lemma accumulate_bound s acc :
  accumulate 16 s acc < (acc + 1) * 16 ^ N.of_nat (String.length s).
Proof.
  revert acc; induction s as [|c s IH]; intros acc.
  - cbn. lia.
  - cbn [accumulate String.length]. rewrite Nat2N.inj_succ, N.pow_succ_r'.
    assert (0 < 16 ^ N.of_nat (String.length s)) as Hpos
      by (apply N.neq_0_lt_0, N.pow_nonzero; discriminate).
    destruct (digit_value c) as [d|]; [|nia].
    destruct (N.ltb_spec d 16); [|nia].
    specialize (IH (acc * 16 + d)). nia.
Qed.

Lemma length_skip_space s : (String.length (skip_space s) <= String.length s)%nat.
Proof.
  induction s as [|c s IH]; [reflexivity|]. cbn [skip_space].
  destruct (isspace c); cbn [String.length]; lia.
Qed.

Lemma length_strip_sign s :
  (String.length (snd (strip_sign s)) <= String.length s)%nat.
Proof.
  destruct s as [|c s]; [reflexivity|]. unfold strip_sign.
  destruct (Ascii.eqb c "-"); [cbn; lia|].
  destruct (Ascii.eqb c "+"); cbn; lia.
Qed.

Lemma length_strip_0x base s :
  (String.length (strip_0x base s) <= String.length s)%nat.
Proof.
  destruct s as [|z [|x [|h r]]]; try reflexivity. unfold strip_0x.
  destruct (_ && _); cbn [String.length]; lia.
Qed.

Lemma stoul_two_chars_exn h1 h2 e :
  stoul (String h1 (String h2 EmptyString)) 16 = Throw e -> e = invalid_argument.
Proof.
  unfold stoul, strtoull.
  pose proof (length_skip_space (String h1 (String h2 EmptyString))) as H1.
  pose proof (length_strip_sign (skip_space (String h1 (String h2 EmptyString)))) as H2.
  destruct (strip_sign _) as [neg body]. cbn [snd String.length] in *.
  pose proof (length_strip_0x 16 body) as H3.
  pose proof (accumulate_bound (strip_0x 16 body) 0) as H4.
  destruct (starts_with_digit 16 (strip_0x 16 body)); [|now intros [= <-]].
  destruct (N.ltb_spec SIZE_MAX (accumulate 16 (strip_0x 16 body) 0)) as [Hbig|];
    [|discriminate].
  exfalso.
  assert (16 ^ N.of_nat (String.length (strip_0x 16 body)) <= 16 ^ 2) as H5
    by (apply N.pow_le_mono_r; lia).
  unfold SIZE_MAX in Hbig. change (16 ^ 2) with 256 in H5. lia.
Qed.

Lemma url_decode_encoded_char c rest :
  url_decode (String "%" (String (hex_char (ord c / 16))
                                 (String (hex_char (ord c mod 16)) rest)))
  = rmap (String c) (url_decode rest).
Proof. every_char c; reflexivity. Qed.

End DecoderFacts.

(** X1.  A string with no ['+'] and no ['%'] decodes to itself. *)
Theorem url_decode_plain (s : string) :
  Str.find_char "+" s = None -> Str.find_char "%" s = None ->
  url_decode s = Ok s.
Proof.
  induction s as [|c s IH]; [reflexivity|]. cbn [Str.find_char].
  destruct (Ascii.eqb_spec c "+") as [|Hplus]; [discriminate|].
  destruct (Ascii.eqb_spec c "%") as [|Hpct]; [discriminate|].
  destruct (Str.find_char "+" s); [discriminate|].
  destruct (Str.find_char "%" s); [discriminate|].
  intros _ _. rewrite url_decode_plain_char by assumption.
  rewrite IH by reflexivity. reflexivity.
Qed.

Lemma url_decode_plain_witness : url_decode "Ann Lee/5" = Ok "Ann Lee/5".
Proof. apply url_decode_plain; reflexivity. Defined.

Section DecoderBounds.

Lemma outcome_copy c (r : Result string) n m :
  (n <= m)%nat ->
  match r with
  | Ok decoded => (String.length decoded <= n)%nat
  | Throw e => e = invalid_argument
  end ->
  match rmap (String c) r with
  | Ok decoded => (String.length decoded <= S m)%nat
  | Throw e => e = invalid_argument
  end.
Proof. destruct r; cbn [rmap rbind String.length]; [lia | auto]. Qed.

Lemma url_decode_outcome_upto n s :
  (String.length s <= n)%nat ->
  match url_decode s with
  | Ok decoded => (String.length decoded <= String.length s)%nat
  | Throw e => e = invalid_argument
  end.
Proof.
  revert s; induction n as [|n IH]; intros s Hn.
  { destruct s; [cbn; lia | cbn [String.length] in Hn; lia]. }
  destruct s as [|c rest]; [cbn; lia|]. cbn [String.length] in Hn.
  assert (match rmap (String c) (url_decode rest) with
          | Ok decoded => (String.length decoded <= S (String.length rest))%nat
          | Throw e => e = invalid_argument
          end) as Hcopy
    by (apply (outcome_copy _ _ (String.length rest)); [lia | apply IH; lia]).
  cbn [url_decode String.length].
  destruct (Ascii.eqb c "+").
  { apply (outcome_copy _ _ (String.length rest)); [lia | apply IH; lia]. }
  destruct rest as [|h1 [|h2 rest']]; try exact Hcopy.
  destruct (Ascii.eqb c "%"); [|exact Hcopy].
  destruct (stoul _ 16) as [v|e] eqn:E; cbn [rbind].
  - cbn [String.length] in *.
    apply (outcome_copy _ _ (String.length rest')); [lia | apply IH; lia].
  - now apply stoul_two_chars_exn in E.
Qed.

End DecoderBounds.

(** X2.  The decoded text is never longer than the encoded text, and the
    only exception [url_decode] can end in is [std::invalid_argument]. *)
Theorem url_decode_outcome (s : string) :
  match url_decode s with
  | Ok decoded => (String.length decoded <= String.length s)%nat
  | Throw e => e = invalid_argument
  end.
Proof. apply (url_decode_outcome_upto (String.length s)). lia. Qed.

(** X3.  Decoding undoes percent-encoding: whatever the bytes of [s], the
    text that spells each of them as ['%'] and two hexadecimal digits
    decodes to [s]. *)
Theorem url_decode_percent_encode (s : string) :
  url_decode (percent_encode s) = Ok s.
Proof.
  induction s as [|c s IH]; [reflexivity|].
  cbn [percent_encode]. rewrite url_decode_encoded_char, IH. reflexivity.
Qed.

Section QueryFacts.

Lemma find_char_None_app c s t :
  Str.find_char c (s +:+ t) = None ->
  Str.find_char c s = None /\ Str.find_char c t = None.
Proof.
  induction s as [|d s IH]; cbn [String.append Str.find_char]; [now split|].
  destruct (Ascii.eqb d c); [discriminate|].
  destruct (Str.find_char c (s +:+ t)) eqn:E; [discriminate|].
  intros _. destruct (IH eq_refl) as [-> ->]. now split.
Qed.

Lemma find_char_None_drop c n s :
  Str.find_char c s = None -> Str.find_char c (Str.drop n s) = None.
Proof.
  intros H. rewrite <- (take_drop n s) in H. now apply find_char_None_app in H.
Qed.

Lemma fold_store_no_pairs segs m :
  Forall (fun s => Str.find_char "=" s = None) segs ->
  fold_left store_pair segs m = m.
Proof.
  intros H; revert m; induction H as [|s segs Hs _ IH]; intros m; [reflexivity|].
  cbn [fold_left]. unfold store_pair at 2. rewrite Hs. apply IH.
Qed.

Lemma form_pairs_extends segs m m' :
  form_pairs segs m = Ok m' ->
  forall k, is_Some (m !! k) -> is_Some (m' !! k).
Proof.
  revert m; induction segs as [|s segs IH]; intros m; cbn [form_pairs].
  - now intros [= <-].
  - destruct (Str.find_char "=" s) as [i|]; [|apply IH].
    destruct (url_decode (Str.take i s)) as [key|]; [|discriminate]. cbn [rbind].
    destruct (url_decode (Str.drop (S i) s)) as [value|]; [|discriminate]. cbn [rbind].
    intros H k Hk. apply (IH _ H). rewrite lookup_insert_is_Some. 
    destruct (decide (key = k)); [now left | now right].
Qed.

End QueryFacts.

(** X4.  A request target with no ['='] in it yields no parameters at all:
    segments of the query that are not [key=value] are dropped. *)
Theorem parse_url_no_pairs (url : string) :
  Str.find_char "=" url = None ->
  RequestInfo.params (parse_url url) = ∅.
Proof.
  intros H. rewrite parse_url_params. apply fold_store_no_pairs.
  assert (Str.find_char "=" (RequestInfo.query (parse_url url)) = None) as Hq.
  { unfold parse_url. destruct (Str.find_char "?" url) as [pos|]; [|reflexivity].
    cbn [RequestInfo.query]. now apply find_char_None_drop. }
  apply List.Forall_forall. intros seg Hin.
  apply segment_occurs in Hin as (pre & post & Heq). rewrite Heq in Hq.
  apply find_char_None_app in Hq as [_ Hq].
  now apply find_char_None_app in Hq as [Hq _].
Qed.

Lemma parse_url_no_pairs_witness :
  RequestInfo.params (parse_url "/search?verbose&page") = ∅.
Proof. apply parse_url_no_pairs. reflexivity. Defined.

(** X5.  [parse_form_body] only adds to the request: when it returns, path,
    query, method, body and keep-alive flag are as before, and every
    parameter that was bound is still bound. *)
Theorem parse_form_body_extends (form_body : string) (info info' : RequestInfo.t) :
  parse_form_body form_body info = Ok info' ->
  RequestInfo.path info' = RequestInfo.path info /\
  RequestInfo.query info' = RequestInfo.query info /\
  RequestInfo.method info' = RequestInfo.method info /\
  RequestInfo.body info' = RequestInfo.body info /\
  RequestInfo.keep_alive info' = RequestInfo.keep_alive info /\
  forall k, is_Some (RequestInfo.params info !! k) ->
            is_Some (RequestInfo.params info' !! k).
Proof.
  unfold parse_form_body, rmap, rbind.
  destruct (form_pairs _ _) as [m'|] eqn:E; [|discriminate].
  intros [= <-]. repeat split. cbn [RequestInfo.params RequestInfo.set_params].
  now apply (form_pairs_extends _ _ _ E).
Qed.

Lemma parse_form_body_extends_witness :
  exists info',
    parse_form_body "page=2" (parse_url "/list?sort=asc") = Ok info' /\
    is_Some (RequestInfo.params info' !! "sort").
Proof.
  eexists. split; [vm_compute; reflexivity|].
  eapply (parse_form_body_extends "page=2" (parse_url "/list?sort=asc")).
  - vm_compute. reflexivity.
  - vm_compute. eauto.
Defined.

Section JsonFacts.

Implicit Types (m : gmap string string) (key val : string).


Lemma json_scan_key k rest key val m :
  Str.find_char DQUOTE k = None ->
  json_scan (k +:+ String DQUOTE rest) KEY false key val m
  = json_scan rest VALUE false (key +:+ k) val m.
Proof.
  revert key; induction k as [|c k IH]; intros key; cbn [Str.find_char String.append].
  - intros _. cbn [json_scan]. rewrite Ascii.eqb_refl, app_empty_r. reflexivity.
  - destruct (Ascii.eqb c DQUOTE) eqn:E; [discriminate|].
    destruct (Str.find_char DQUOTE k); [discriminate|]. intros _.
    cbn [json_scan]. rewrite E, IH by reflexivity.
    rewrite app_assoc. reflexivity.
Qed.

(** Inside a quoted value, a character that is neither a backslash nor a
    quote is copied. *)
Lemma json_scan_copy c tail key val m :
  tail <> EmptyString ->
  Ascii.eqb c BACKSLASH = false -> Ascii.eqb c DQUOTE = false ->
  json_scan (String c tail) VALUE true key val m
  = json_scan tail VALUE true key (val +:+ String c EmptyString) m.
Proof.
  intros Hne Hb Hq. destruct tail as [|d r]; [contradiction|].
  cbn [json_scan]. rewrite Hb, Hq. reflexivity.
Qed.

Lemma json_scan_string v rest key val m :
  Str.find_char DQUOTE v = None -> Str.find_char BACKSLASH v = None ->
  json_scan (v +:+ String DQUOTE rest) VALUE true key val m
  = json_scan rest VALUE false key (val +:+ v) m.
Proof.
  revert val; induction v as [|c v IH]; intros val; cbn [Str.find_char String.append].
  - intros _ _. cbn [json_scan]. rewrite app_empty_r.
    destruct rest as [|d rest']; [reflexivity|].
    change (Ascii.eqb DQUOTE BACKSLASH) with false. cbn [andb].
    rewrite Ascii.eqb_refl. reflexivity.
  - destruct (Ascii.eqb c DQUOTE) eqn:Eq; [discriminate|].
    destruct (Ascii.eqb c BACKSLASH) eqn:Eb; [discriminate|].
    destruct (Str.find_char DQUOTE v); [discriminate|].
    destruct (Str.find_char BACKSLASH v); [discriminate|]. intros _ _.
    rewrite json_scan_copy; [| now destruct v | exact Eb | exact Eq].
    rewrite IH by reflexivity. rewrite app_assoc. reflexivity.
Qed.

Lemma json_scan_open_key r key val m :
  json_scan (String DQUOTE r) SEARCHING false key val m = json_scan r KEY false key val m.
Proof. reflexivity. Qed.

Lemma json_scan_colon r key val m :
  json_scan (String ":" r) VALUE false key val m = json_scan r VALUE false key val m.
Proof. reflexivity. Qed.

Lemma json_scan_open_string r key val m :
  json_scan (String DQUOTE r) VALUE false key val m = json_scan r VALUE true key val m.
Proof. reflexivity. Qed.

Lemma json_scan_store sep r key val m :
  sep = ","%char \/ sep = "}"%char -> key <> EmptyString ->
  json_scan (String sep r) VALUE false key val m
  = json_scan r SEARCHING false EmptyString EmptyString (<[key := val]> m).
Proof.
  intros Hsep Hne. apply String.eqb_neq in Hne.
  destruct Hsep as [-> | ->]; cbn [json_scan];
    match goal with |- context [if ?b then _ else _] => change b with false end;
    cbv iota;
    match goal with |- context [if ?b then _ else _] => change b with true end;
    cbv iota; rewrite Hne; reflexivity.
Qed.

(** One member and the [','] or ['}'] after it. *)
Lemma json_scan_member kv sep rest m :
  plain_member kv -> sep = ","%char \/ sep = "}"%char ->
  json_scan (render_member kv +:+ String sep rest) SEARCHING false
            EmptyString EmptyString m
  = json_scan rest SEARCHING false EmptyString EmptyString (insert_pair m kv).
Proof.
  destruct kv as [k v]. intros (Hne & Hk & Hv1 & Hv2) Hsep. cbn [fst snd] in *.
  unfold render_member, insert_pair. cbn [fst snd String.append].
  rewrite !app_assoc. cbn [String.append].
  rewrite json_scan_open_key, json_scan_key by exact Hk.
  rewrite json_scan_colon, json_scan_open_string.
  rewrite ?app_assoc. cbn [String.append].
  rewrite json_scan_string by assumption.
  cbn [String.append]. now rewrite json_scan_store.
Qed.

Lemma json_scan_members kvs m :
  Forall plain_member kvs ->
  json_scan (String.concat "," (map render_member kvs) +:+ "}") SEARCHING false
            EmptyString EmptyString m
  = fold_left insert_pair kvs m.
Proof.
  intros H; revert m; induction H as [|kv kvs Hkv Hkvs IH]; intros m; [reflexivity|].
  destruct kvs as [|kv' kvs'].
  - cbn [map String.concat fold_left].
    change (render_member kv +:+ "}") with (render_member kv +:+ String "}" EmptyString).
    rewrite json_scan_member by auto. reflexivity.
  - cbn [map]. rewrite concat_cons2. cbn [fold_left].
    rewrite !app_assoc. cbn [String.append].
    rewrite json_scan_member by auto. apply IH.
Qed.

End JsonFacts.



(** X7.  The scanner reads back a flat object of string members: for
    members with a non-empty key without quotes and a value without quotes
    and backslashes, parsing the rendered object stores exactly those
    members, in order, over the parameters already there. *)
Theorem parse_json_body_render (kvs : list (string * string)) (info : RequestInfo.t) :
  Forall plain_member kvs ->
  parse_json_body (render_object kvs) info
  = RequestInfo.set_params (fold_left insert_pair kvs (RequestInfo.params info)) info.
Proof.
  intros H. unfold parse_json_body, render_object. f_equal.
  cbn [String.append json_scan].
  change (Ascii.eqb "{" DQUOTE) with false. cbv iota.
  now apply json_scan_members.
Qed.

Lemma parse_json_body_render_witness :
  RequestInfo.params
    (parse_json_body (render_object [("user", "bob"); ("message", "hi there")])
                     (parse_url "/chat"))
  = {[ "user" := "bob"; "message" := "hi there" ]}.
Proof.
  rewrite (parse_json_body_render [("user", "bob"); ("message", "hi there")]).
  - vm_compute. reflexivity.
  - repeat constructor; discriminate.
Defined.

Section MimeFacts.

Lemma find_last_of_absent c s :
  Str.find_char c s = None -> Str.find_last_of c s = None.
Proof.
  induction s as [|d s IH]; [reflexivity|]. cbn [Str.find_char Str.find_last_of].
  destruct (Ascii.eqb d c); [discriminate|].
  destruct (Str.find_char c s); [discriminate|]. intros _. now rewrite IH.
Qed.

Lemma find_last_of_app c s t :
  Str.find_char c t = None ->
  Str.find_last_of c (s +:+ String c t) = Some (String.length s).
Proof.
  intros H. induction s as [|d s IH]; cbn [String.append Str.find_last_of String.length].
  - now rewrite (find_last_of_absent _ _ H), Ascii.eqb_refl.
  - now rewrite IH.
Qed.

Lemma get_mime_type_suffix stem ext :
  Str.find_char "." ext = None ->
  get_mime_type (stem +:+ String "." ext)
  = match table_find (String "." ext) mime_types with
    | Some mime => mime
    | None => "text/plain"
    end.
Proof.
  intros H. unfold get_mime_type. now rewrite find_last_of_app, drop_app.
Qed.

End MimeFacts.

(** X8.  The MIME type depends on the text from the last ['.'] on and on
    nothing else: whatever comes before, the six known extensions give
    their type, the match is case-sensitive, and a path without a dot is
    text/plain. *)
Theorem get_mime_type_table (stem : string) :
  get_mime_type (stem +:+ ".html") = "text/html" /\
  get_mime_type (stem +:+ ".css") = "text/css" /\
  get_mime_type (stem +:+ ".js") = "application/javascript" /\
  get_mime_type (stem +:+ ".jpg") = "image/jpeg" /\
  get_mime_type (stem +:+ ".jpeg") = "image/jpeg" /\
  get_mime_type (stem +:+ ".png") = "image/png" /\
  get_mime_type (stem +:+ ".HTML") = "text/plain" /\
  get_mime_type (stem +:+ ".html/index") = "text/plain" /\
  (Str.find_char "." stem = None -> get_mime_type stem = "text/plain").
Proof.
  repeat split; try (apply get_mime_type_suffix; reflexivity).
  intros H. unfold get_mime_type. now rewrite find_last_of_absent.
Qed.

Lemma get_mime_type_table_witness :
  get_mime_type "public/v1.2/app.js" = "application/javascript" /\
  get_mime_type "public/LICENSE" = "text/plain".
Proof.
  destruct (get_mime_type_table "public/v1.2/app") as (_ & _ & H & _).
  destruct (get_mime_type_table "public/LICENSE") as (_ & _ & _ & _ & _ & _ & _ & _ & H').
  split; [exact H | apply H'; reflexivity].
Defined.

(** * Decimal numerals *)

Section Decimal.

Lemma accumulate_uint_pos d acc rest :
  accumulate 10 (NilEmpty.string_of_uint d +:+ rest) (Npos acc)
  = accumulate 10 rest (Npos (Pos.of_uint_acc d acc)).
Proof.
  revert acc; induction d as [|d IH|d IH|d IH|d IH|d IH|d IH|d IH|d IH|d IH|d IH];
    intros acc; [reflexivity|..];
    cbn [NilEmpty.string_of_uint String.append accumulate Pos.of_uint_acc];
    match goal with
    | |- context [digit_value ?c] =>
        let v := eval vm_compute in (digit_value c) in
        change (digit_value c) with v
    end;
    cbv iota; match goal with |- context [?a <? 10] => change (a <? 10) with true end;
    cbv iota; rewrite <- IH; f_equal; lia.
Qed.

Lemma accumulate_uint d rest :
  accumulate 10 (NilEmpty.string_of_uint d +:+ rest) 0
  = accumulate 10 rest (N.of_uint d).
Proof.
  unfold N.of_uint.
  induction d as [|d IH|d IH|d IH|d IH|d IH|d IH|d IH|d IH|d IH|d IH];
    [reflexivity | exact IH |..];
    cbn [NilEmpty.string_of_uint String.append accumulate Pos.of_uint];
    match goal with
    | |- context [digit_value ?c] =>
        let v := eval vm_compute in (digit_value c) in
        change (digit_value c) with v
    end;
    cbv iota; match goal with |- context [?a <? 10] => change (a <? 10) with true end;
    cbv iota; rewrite <- accumulate_uint_pos; reflexivity.
Qed.

Lemma numeral_head d :
  d <> Decimal.Nil ->
  exists c r,
    NilEmpty.string_of_uint d = String c r /\ isspace c = false /\
    Ascii.eqb c "-" = false /\ Ascii.eqb c "+" = false /\ is_digit 10 c = true.
Proof.
  destruct d; [contradiction|..]; intros _; eexists _, _;
    (split; [reflexivity | vm_compute; repeat split]).
Qed.

Lemma strtoull_numeral d :
  d <> Decimal.Nil -> N.of_uint d <= SIZE_MAX ->
  strtoull (NilEmpty.string_of_uint d) 10 = Ok (N.of_uint d).
Proof.
  intros Hd Hmax. destruct (numeral_head d Hd) as (c & r & Hs & H1 & H2 & H3 & H4).
  pose proof (accumulate_uint d EmptyString) as Hacc.
  rewrite app_empty_r in Hacc. cbn [accumulate] in Hacc.
  unfold strtoull. rewrite Hs in *. cbn [skip_space]. rewrite H1.
  unfold strip_sign. rewrite H2, H3.
  assert (strip_0x 10 (String c r) = String c r) as ->
    by (destruct r as [|x [|h r']]; reflexivity).
  cbn [starts_with_digit]. rewrite H4, Hacc.
  apply N.ltb_ge in Hmax. now rewrite Hmax.
Qed.

End Decimal.

(** X9.  The numeral the serializer writes for a Content-Length is the
    numeral the request parser reads: [std::stoull] gives back every
    size_t value from its decimal text. *)
Theorem stoull_put_size (n : N) :
  n <= SIZE_MAX -> stoull (Response.put_size n) = Ok n.
Proof.
  intros Hn. unfold stoull, Response.put_size, NilZero.string_of_uint.
  assert (N.to_uint n <> Decimal.Nil) as Hd.
  { destruct n; [discriminate | apply DecimalPos.Unsigned.to_uint_nonnil]. }
  pose proof (strtoull_numeral (N.to_uint n) Hd) as H.
  rewrite DecimalN.Unsigned.of_to in H. specialize (H Hn).
  destruct (N.to_uint n); [contradiction|..]; exact H.
Qed.

Lemma stoull_put_size_witness : stoull (Response.put_size 10485760) = Ok 10485760.
Proof. apply stoull_put_size. vm_compute. discriminate. Defined.

(** * Further properties of the session *)

Section SessionEvents.

Variable fs : string -> option string.
Variable routes : gmap string (RequestInfo.t -> Response.t).

Lemma emits_ret P {A} (a : A) : emits P (ret a).
Proof. intros w r w' [= <- <-]. exists []. now rewrite app_nil_r. Qed.

Lemma emits_lift P {A} (r : Result A) : emits P (lift r).
Proof. intros w r' w' [= <- <-]. exists []. now rewrite app_nil_r. Qed.

Lemma emits_emit (P : Event -> Prop) e : P e -> emits P (emit e).
Proof. intros He w r w' [= <- <-]. exists [e]. split; [reflexivity | now constructor]. Qed.

Lemma emits_bind P {A B} (m : M A) (k : A -> M B) :
  emits P m -> (forall a, emits P (k a)) -> emits P (bind m k).
Proof.
  intros Hm Hk w r w' H. unfold bind in H.
  destruct (m w) as [[a|e] w1] eqn:E.
  - destruct (Hm _ _ _ E) as (evs1 & T1 & F1).
    destruct (Hk a _ _ _ H) as (evs2 & T2 & F2).
    exists (evs1 ++ evs2). rewrite T2, T1, <- List.app_assoc.
    split; [reflexivity | now apply Forall_app].
  - injection H as <- <-. eauto.
Qed.

Lemma emits_sock_read (P : Event -> Prop) count :
  (forall got, P (EvRead count got)) -> emits P (sock_read count).
Proof.
  intros HP w r w' H. unfold sock_read in H.
  destruct (inbox w) as [|pkt rest].
  - injection H as <- <-. eexists; split; [reflexivity | now constructor].
  - destruct (String.eqb _ _); injection H as <- <-;
      (eexists; split; [reflexivity | now constructor]).
Qed.

Lemma session_read_body fuel content_length requestData current_body_len :
  emits session_event (read_body fuel content_length requestData current_body_len).
Proof.
  revert requestData current_body_len; induction fuel as [|fuel IH];
    intros requestData current_body_len; cbn [read_body];
    destruct (N.ltb_spec current_body_len content_length); try apply emits_ret.
  apply emits_bind.
  - apply emits_sock_read. intros got. right.
    unfold ServerConstants.CHUNK_BUFFER_SIZE. lia.
  - intros [extra|]; [apply IH | apply emits_ret].
Qed.

Lemma session_handle_static_file path :
  emits session_event (handle_static_file fs path).
Proof.
  unfold handle_static_file. destruct (Str.contains ".." path) eqn:E.
  - apply emits_ret.
  - apply emits_bind.
    + unfold open_file. apply emits_bind; [|intros; apply emits_ret].
      apply emits_emit. now exists path.
    + intros [content|]; apply emits_ret.
Qed.

Lemma session_serve requestData body_pos req :
  emits session_event (serve fs routes requestData body_pos req).
Proof.
  unfold serve. apply emits_bind.
  { unfold read_payload. destruct (String.eqb _ _); [apply emits_ret|].
    apply emits_bind; [apply emits_lift|]. intros content_length.
    destruct (MAX_PAYLOAD_SIZE <? content_length); [apply emits_ret|].
    apply emits_bind; [apply session_read_body|]. intros data.
    apply emits_bind; [apply emits_lift|]. intros body. apply emits_ret. }
  intros [[[req' res] error_occurred] data].
  destruct (negb error_occurred); [|apply emits_ret].
  apply emits_bind.
  { unfold parse_body. destruct (String.eqb _ _); [|apply emits_ret].
    destruct (Str.contains _ _); [apply emits_lift|].
    destruct (Str.contains _ _); apply emits_ret. }
  intros req''. apply emits_bind; [|intros res'; apply emits_ret].
  unfold dispatch. destruct (routes !! _); [apply emits_ret|].
  apply session_handle_static_file.
Qed.

Lemma session_handle_request : emits session_event (handle_request fs routes).
Proof.
  unfold handle_request. apply emits_bind.
  { apply emits_sock_read. intros got. now left. }
  intros [requestData|]; [|apply emits_ret].
  destruct (Str.find _ requestData) as [body_pos|]; [|apply emits_ret].
  apply emits_bind; [apply emits_lift|]. intros req.
  apply emits_bind; [apply session_serve|]. intros [req' res].
  unfold respond. apply emits_bind; [now apply emits_emit|]. intros _.
  apply emits_bind; [now apply emits_emit|]. intros _. apply emits_ret.
Qed.

Lemma session_keep_alive_loop fuel :
  emits session_event (keep_alive_loop fs routes fuel).
Proof.
  induction fuel as [|fuel IH]; cbn [keep_alive_loop]; [apply emits_ret|].
  apply emits_bind; [apply session_handle_request|].
  intros [[req res]|]; [|apply emits_ret].
  destruct (Response.keep_alive res); [apply IH | apply emits_ret].
Qed.

(** The events of a whole session: session events, then the close when the
    session returns, and no close when it ends in an exception. *)
Lemma session_handle_client w r w' :
  handle_client fs routes w = (r, w') ->
  exists evs,
    Forall session_event evs /\
    trace w' = trace w ++ evs ++ (match r with Ok _ => [EvClose] | Throw _ => [] end).
Proof.
  unfold handle_client, bind.
  destruct (keep_alive_loop fs routes _ w) as [[[]|e] w1] eqn:E;
    destruct (session_keep_alive_loop _ _ _ _ E) as (evs & T & F).
  - intros [= <- <-]. exists evs. split; [exact F|]. cbn [trace].
    now rewrite T, <- List.app_assoc.
  - intros [= <- <-]. exists evs. split; [exact F|]. now rewrite app_nil_r.
Qed.

End SessionEvents.

(** X10.  A session that returns has closed the socket exactly once, as
    the last thing it did; a session that ends in an exception has not
    closed it. *)
Theorem socket_closed_once
    (fs : string -> option string) (routes : gmap string (RequestInfo.t -> Response.t))
    (w w' : World) (r : Result unit) :
  handle_client fs routes w = (r, w') ->
  exists evs,
    Forall (fun e => e <> EvClose) evs /\
    trace w' = trace w ++ evs ++ (match r with Ok _ => [EvClose] | Throw _ => [] end).
Proof.
  intros H. apply session_handle_client in H as (evs & F & T).
  exists evs. split; [|exact T].
  eapply Forall_impl; [exact F|]. intros e He ->. exact He.
Qed.

Lemma socket_closed_once_witness :
  let request := "GET /a.css HTTP/1.1" +:+ CRLF +:+ CRLF in
  let routes : gmap string (RequestInfo.t -> Response.t) := ∅ in
  let w := mkWorld [request; request] [] in
  exists r w', handle_client (fun _ => Some "a{}") routes w = (r, w') /\
  exists evs,
    Forall (fun e => e <> EvClose) evs /\
    trace w' = trace w ++ evs ++ (match r with Ok _ => [EvClose] | Throw _ => [] end).
Proof.
  intros request routes w. eexists _, _. split; [vm_compute; reflexivity|].
  apply (socket_closed_once (fun _ => Some "a{}") routes w).
  vm_compute. reflexivity.
Defined.



(** X12.  A session never asks [read] for more than the buffer it reads
    into can hold: every read is for the 30000 bytes of the request buffer
    or for between 1 and 4096 bytes of the chunk buffer. *)
Theorem reads_fit_their_buffer
    (fs : string -> option string) (routes : gmap string (RequestInfo.t -> Response.t))
    (w w' : World) (r : Result unit) :
  handle_client fs routes w = (r, w') ->
  exists evs, trace w' = trace w ++ evs /\
    forall count got, In (EvRead count got) evs ->
      count = 30000 \/ (0 < count /\ count <= 4096).
Proof.
  intros H. apply session_handle_client in H as (evs & F & T).
  eexists. split; [exact T|]. intros count got Hin.
  apply in_app_or in Hin as [Hin|Hin].
  - rewrite List.Forall_forall in F. exact (F _ Hin).
  - destruct r; cbn in Hin; [destruct Hin as [[=]|[]] | destruct Hin].
Qed.

Lemma reads_fit_their_buffer_witness :
  let request :=
    "POST /x HTTP/1.1" +:+ CRLF +:+ "Content-Length: 5000" +:+ CRLF +:+ CRLF +:+ "ab" in
  let routes : gmap string (RequestInfo.t -> Response.t) := ∅ in
  let w := mkWorld [request; "cd"] [] in
  exists r w', handle_client (fun _ => None) routes w = (r, w') /\
  exists evs, trace w' = trace w ++ evs /\
    forall count got, In (EvRead count got) evs ->
      count = 30000 \/ (0 < count /\ count <= 4096).
Proof.
  intros request routes w. eexists _, _. split; [vm_compute; reflexivity|].
  eapply (reads_fit_their_buffer (fun _ => None) routes w).
  vm_compute. reflexivity.
Defined.

Section RequestLine.

Lemma size_add_small a b : a + b <= SIZE_MAX -> size_add a b = a + b.
Proof. intros H. unfold size_add. apply N.mod_small. lia. Qed.

Lemma size_sub_small a b : b <= a -> a <= SIZE_MAX -> size_sub a b = a - b.
Proof.
  intros Hb Ha. unfold size_sub.
  rewrite (N.mod_small b) by lia.
  replace (a + (SIZE_MAX + 1) - b) with ((a - b) + 1 * (SIZE_MAX + 1)) by lia.
  rewrite N.Div0.mod_add. apply N.mod_small. lia.
Qed.

Lemma find_char_from_start c s :
  find_char_from c s 0 = match Str.find_char c s with
                         | Some i => N.of_nat i
                         | None => npos
                         end.
Proof.
  unfold find_char_from.
  assert ((Str.len s <? 0) = false) as -> by (apply N.ltb_ge; lia).
  change (N.to_nat 0) with O. cbn [Str.drop]. now destruct (Str.find_char c s).
Qed.

Lemma parse_request_line_split method url rest :
  Str.find_char " " method = None -> Str.find_char " " url = None ->
  Str.len (method +:+ String " " (url +:+ String " " rest)) <= SIZE_MAX ->
  parse_request_line (method +:+ String " " (url +:+ String " " rest))
  = Ok (RequestInfo.set_method method (parse_url url)).
Proof.
  intros Hm Hu Hlen. set (s := method +:+ String " " (url +:+ String " " rest)) in *.
  assert (Str.len s = N.of_nat (String.length method) + 1
                      + N.of_nat (String.length url) + 1
                      + N.of_nat (String.length rest)) as Hs.
  { unfold Str.len, s. rewrite length_app. cbn [String.length].
    rewrite length_app. cbn [String.length]. lia. }
  set (lm := N.of_nat (String.length method)) in *.
  assert (find_char_from " " s 0 = lm) as Hfirst.
  { rewrite find_char_from_start. unfold s. now rewrite find_char_app. }
  unfold parse_request_line. rewrite Hfirst.
  rewrite size_add_small by lia.
  assert (find_char_from " " s (lm + 1) = lm + 1 + N.of_nat (String.length url)) as ->.
  { unfold find_char_from.
    assert ((Str.len s <? lm + 1) = false) as -> by (apply N.ltb_ge; lia).
    replace (N.to_nat (lm + 1)) with (S (String.length method)) by (unfold lm; lia).
    unfold s. rewrite drop_past_char, find_char_app by exact Hu. reflexivity. }
  rewrite size_sub_small by lia.
  unfold substr.
  assert ((Str.len s <? 0) = false) as -> by (apply N.ltb_ge; lia).
  assert ((Str.len s <? lm + 1) = false) as -> by (apply N.ltb_ge; lia).
  cbn [rbind].
  replace (N.to_nat (N.min lm (Str.len s - 0))) with (String.length method)
    by (unfold lm; lia).
  replace (N.to_nat (N.min (lm + 1 + N.of_nat (String.length url) - (lm + 1))
                           (Str.len s - (lm + 1))))
    with (String.length url) by lia.
  replace (N.to_nat (lm + 1)) with (S (String.length method)) by (unfold lm; lia).
  change (Str.drop (N.to_nat 0) s) with s.
  unfold s. rewrite take_app, drop_past_char, take_app. reflexivity.
Qed.

Lemma parse_url_keep_alive url : RequestInfo.keep_alive (parse_url url) = true.
Proof. unfold parse_url. destruct (Str.find_char "?" url); reflexivity. Qed.

End RequestLine.

(** X13.  Cutting method and target out of the request never throws: for
    every first read the two [substr] calls stay in range, even when the
    data holds no space at all; the method is a prefix of the data and
    the request starts out with keep-alive set. *)
Theorem request_line_never_throws (requestData : string) :
  exists req,
    parse_request_line requestData = Ok req /\
    RequestInfo.keep_alive req = true /\
    exists rest, requestData = RequestInfo.method req +:+ rest.
Proof.
  destruct (parse_request_line_ok requestData) as [req H]. exists req.
  split; [exact H|]. unfold parse_request_line, substr in H.
  destruct (Str.len requestData <? 0); [discriminate|]. cbn [rbind] in H.
  destruct (Str.len requestData <? _); [discriminate|]. cbn [rbind] in H.
  injection H as <-. split; [apply parse_url_keep_alive|].
  cbn [RequestInfo.method RequestInfo.set_method]. change (N.to_nat 0) with O.
  cbn [Str.drop]. eexists. symmetry. apply take_drop.
Qed.

(** X14.  A request line [method SP target SP rest] with no space inside
    method and target is taken apart at its two spaces: the method is
    stored as written and the target goes to [parse_url]. *)
Theorem request_line_split (method url rest : string) :
  Str.find_char " " method = None -> Str.find_char " " url = None ->
  Str.len (method +:+ " " +:+ url +:+ " " +:+ rest) <= SIZE_MAX ->
  parse_request_line (method +:+ " " +:+ url +:+ " " +:+ rest)
  = Ok (RequestInfo.set_method method (parse_url url)).
Proof. intros Hm Hu Hlen. now apply parse_request_line_split. Qed.

Lemma request_line_split_witness :
  parse_request_line ("DELETE /a?b=c HTTP/1.1" +:+ CRLF +:+ CRLF)
  = Ok (RequestInfo.set_method "DELETE" (parse_url "/a?b=c")).
Proof.
  apply (request_line_split "DELETE" "/a?b=c" ("HTTP/1.1" +:+ CRLF +:+ CRLF)).
  - reflexivity.
  - reflexivity.
  - vm_compute. discriminate.
Defined.

Section BodyLoop.

Variable fs : string -> option string.
Variable routes : gmap string (RequestInfo.t -> Response.t).

Lemma length_take_le n s : (String.length (Str.take n s) <= n)%nat.
Proof. revert s; induction n; intros [|c s]; cbn; try lia. specialize (IHn s). lia. Qed.

Lemma take_all n s : (String.length s <= n)%nat -> Str.take n s = s.
Proof.
  revert s; induction n; intros [|c s]; cbn; intros H; try reflexivity; try lia.
  rewrite IHn by lia. reflexivity.
Qed.

Lemma take_take n s : Str.take n (Str.take n s) = Str.take n s.
Proof. apply take_all, length_take_le. Qed.

Lemma take_app_le n s t :
  (String.length s <= n)%nat ->
  Str.take n (s +:+ t) = s +:+ Str.take (n - String.length s) t.
Proof.
  revert n; induction s as [|c s IH]; intros n H; cbn [String.length String.append] in *.
  - now rewrite Nat.sub_0_r.
  - destruct n as [|n]; [lia|]. cbn [Str.take]. rewrite IH by lia. reflexivity.
Qed.

Lemma take_app_ge n s t :
  (n <= String.length s)%nat -> Str.take n (s +:+ t) = Str.take n s.
Proof.
  revert n; induction s as [|c s IH]; intros n H; cbn [String.length String.append] in *.
  - assert (n = O) as -> by lia. now destruct t.
  - destruct n as [|n]; [reflexivity|]. cbn [Str.take]. rewrite IH by lia. reflexivity.
Qed.

Lemma drop_app_le n s t :
  (String.length s <= n)%nat ->
  Str.drop n (s +:+ t) = Str.drop (n - String.length s) t.
Proof.
  revert n; induction s as [|c s IH]; intros n H; cbn [String.length String.append] in *.
  - now rewrite Nat.sub_0_r.
  - destruct n as [|n]; [lia|]. cbn [Str.drop]. apply IH. lia.
Qed.

Lemma drop_none n s : (String.length s <= n)%nat -> Str.drop n s = EmptyString.
Proof.
  revert s; induction n; intros [|c s]; cbn; intros H; try reflexivity; try lia.
  apply IHn. lia.
Qed.

Lemma sock_read_trace_any count w o w1 :
  sock_read count w = (Ok o, w1) -> trace w1 = trace w ++ [EvRead count o].
Proof.
  unfold sock_read. destruct (inbox w) as [|pkt rest]; [now intros [= <- <-]|].
  destruct (String.eqb _ _); now intros [= <- <-].
Qed.

(** A read on a queue without empty packets: it fails only on the empty
    queue, and otherwise hands over a non-empty front of the stream. *)
Lemma sock_read_stream count w :
  (0 < count) ->
  Forall (fun pkt => pkt <> EmptyString) (inbox w) ->
  exists o w1,
    sock_read count w = (Ok o, w1) /\
    Forall (fun pkt => pkt <> EmptyString) (inbox w1) /\
    match o with
    | None => inbox w = [] /\ inbox w1 = []
    | Some got =>
        (0 < String.length got <= N.to_nat count)%nat /\
        got = Str.take (String.length got) (stream (inbox w)) /\
        stream (inbox w1) = Str.drop (String.length got) (stream (inbox w))
    end.
Proof.
  intros Hc Hne. unfold sock_read. destruct (inbox w) as [|pkt rest] eqn:Ei.
  - eexists _, _. split; [reflexivity|]. cbn. auto.
  - inversion Hne as [|? ? Hpkt Hrest]; subst.
    set (got := Str.take (N.to_nat count) pkt).
    set (left := Str.drop (N.to_nat count) pkt).
    assert (pkt = got +:+ left) as Hsplit by (symmetry; apply take_drop).
    assert (got <> EmptyString) as Hgot.
    { unfold got. destruct pkt; [contradiction|].
      destruct (N.to_nat count) eqn:E; [lia | discriminate]. }
    assert (0 < String.length got <= N.to_nat count)%nat as Hlen.
    { split; [destruct got; [contradiction | cbn; lia] | apply length_take_le]. }
    clearbody got left. subst pkt.
    destruct (String.eqb_spec got EmptyString) as [|_]; [contradiction|].
    eexists _, _. split; [reflexivity|]. cbn [inbox stream].
    split; [|split; [exact Hlen|split]].
    + destruct (String.eqb_spec left EmptyString); [exact Hrest | now constructor].
    + now rewrite app_assoc, take_app.
    + rewrite app_assoc, drop_app.
      destruct (String.eqb_spec left EmptyString) as [->|]; reflexivity.
Qed.

(** The body loop takes from the stream exactly what is missing, however
    the bytes are cut into packets, and leaves the rest queued. *)
Lemma read_body_stream fuel content_length requestData current_body_len w :
  Forall (fun pkt => pkt <> EmptyString) (inbox w) ->
  (N.to_nat (content_length - current_body_len) <= fuel)%nat ->
  exists w',
    read_body fuel content_length requestData current_body_len w
    = (Ok (requestData
             +:+ Str.take (N.to_nat (content_length - current_body_len))
                          (stream (inbox w))), w') /\
    Forall (fun pkt => pkt <> EmptyString) (inbox w') /\
    stream (inbox w')
    = Str.drop (N.to_nat (content_length - current_body_len)) (stream (inbox w)).
Proof.
  revert requestData current_body_len w; induction fuel as [|fuel IH];
    intros requestData current_body_len w Hne Hfuel; cbn [read_body];
    destruct (N.ltb_spec current_body_len content_length) as [Hlt|Hge];
    try lia;
    try (replace (N.to_nat (content_length - current_body_len)) with O by lia;
         exists w; cbn [Str.take Str.drop]; rewrite app_empty_r; now repeat split).
  set (k := N.to_nat (content_length - current_body_len)) in *.
  set (to_read := N.min ServerConstants.CHUNK_BUFFER_SIZE
                        (content_length - current_body_len)).
  assert (0 < to_read) as Hpos by (unfold to_read, ServerConstants.CHUNK_BUFFER_SIZE; lia).
  assert (N.to_nat to_read <= k)%nat as Hle by (unfold to_read, k; lia).
  destruct (sock_read_stream to_read w Hpos Hne) as (o & w1 & Hread & Hne1 & Ho).
  unfold bind. rewrite Hread. destruct o as [got|].
  - destruct Ho as (Hlen & Hgot & Hrest).
    destruct (IH (requestData +:+ got) (current_body_len + Str.len got) w1 Hne1)
      as (w' & Hrun & Hne' & Hstream).
    { unfold Str.len. lia. }
    exists w'. rewrite Hrun.
    replace (N.to_nat (content_length - (current_body_len + Str.len got)))
      with (k - String.length got)%nat in * by (unfold Str.len, k; lia).
    split; [|split; [exact Hne'|]].
    + f_equal. f_equal. rewrite app_assoc. f_equal.
      pose proof (take_drop (String.length got) (stream (inbox w))) as HS.
      rewrite <- Hgot in HS.
      rewrite Hrest, <- take_app_le by lia. now rewrite HS.
    + rewrite Hstream, Hrest, drop_drop. f_equal. lia.
  - destruct Ho as [Hin Hin1]. exists w1. rewrite Hin, Hin1. cbn [stream].
    split; [|split; [constructor|]].
    + destruct k; cbn [Str.take]; rewrite app_empty_r; reflexivity.
    + now destruct k.
Qed.

End BodyLoop.

Section PayloadFacts.

Variable fs : string -> option string.
Variable routes : gmap string (RequestInfo.t -> Response.t).

Lemma length_drop n s : String.length (Str.drop n s) = (String.length s - n)%nat.
Proof. revert s; induction n; intros [|c s]; cbn; try lia. apply IHn. Qed.

Lemma drop_app_ge n s t :
  (n <= String.length s)%nat -> Str.drop n (s +:+ t) = Str.drop n s +:+ t.
Proof.
  revert n; induction s as [|c s IH]; intros n H; cbn [String.length String.append] in *.
  - assert (n = O) as -> by lia. reflexivity.
  - destruct n as [|n]; [reflexivity|]. cbn [Str.drop]. apply IH. lia.
Qed.

Lemma take_min n s : Str.take (Nat.min n (String.length s)) s = Str.take n s.
Proof.
  destruct (Nat.le_ge_cases n (String.length s)).
  - now rewrite Nat.min_l.
  - rewrite Nat.min_r, !take_all by lia. reflexivity.
Qed.

Lemma take_app_take n s t :
  Str.take n (s +:+ Str.take (n - String.length s) t) = Str.take n (s +:+ t).
Proof.
  destruct (Nat.le_ge_cases (String.length s) n).
  - rewrite !take_app_le by lia. now rewrite take_take.
  - rewrite !take_app_ge by lia. reflexivity.
Qed.

Lemma sock_read_got_le count w got w1 :
  sock_read count w = (Ok (Some got), w1) ->
  (String.length got <= N.to_nat count)%nat.
Proof.
  unfold sock_read. destruct (inbox w) as [|pkt rest]; [discriminate|].
  destruct (String.eqb _ _); [discriminate|]. intros [= <- _]. apply length_take_le.
Qed.

(** The body loop always returns, with the data it had and at most the
    missing bytes more. *)
Lemma read_body_bounds fuel content_length requestData current_body_len w :
  exists data w',
    read_body fuel content_length requestData current_body_len w = (Ok data, w') /\
    (String.length requestData <= String.length data)%nat /\
    (String.length data
     <= String.length requestData + N.to_nat (content_length - current_body_len))%nat.
Proof.
  revert requestData current_body_len w; induction fuel as [|fuel IH];
    intros requestData current_body_len w; cbn [read_body];
    destruct (N.ltb_spec current_body_len content_length) as [Hlt|Hge];
    try (eexists _, _; split; [reflexivity | lia]).
  unfold bind.
  destruct (sock_read _ w) as [[[got|]|e] w1] eqn:E.
  - apply sock_read_got_le in E.
    destruct (IH (requestData +:+ got) (current_body_len + Str.len got) w1)
      as (data & w' & -> & H1 & H2).
    rewrite length_app in *. unfold Str.len in *.
    exists data, w'. split; [reflexivity|].
    unfold ServerConstants.CHUNK_BUFFER_SIZE in E. lia.
  - eexists _, _; split; [reflexivity | lia].
  - exfalso. unfold sock_read in E. destruct (inbox w); [discriminate|].
    destruct (String.eqb _ _); discriminate.
Qed.

End PayloadFacts.

(** X15.  When the first read fails, or brings data without the
    header/body delimiter, the session closes the socket at once: that one
    read, then the close, and nothing is sent. *)
Theorem session_without_request
    (fs : string -> option string) (routes : gmap string (RequestInfo.t -> Response.t))
    (w w1 : World) (valread : option string) :
  sock_read ServerConstants.MAX_READ_BUFFER w = (Ok valread, w1) ->
  (valread = None \/
   exists requestData,
     valread = Some requestData /\
     Str.find ServerConstants.HTTP_DELIM requestData = None) ->
  handle_client fs routes w
  = (Ok tt,
     mkWorld (inbox w1)
       (trace w ++ [EvRead ServerConstants.MAX_READ_BUFFER valread; EvClose])).
Proof.
  intros Hread Hbad. pose proof (sock_read_trace_any _ _ _ _ Hread) as T.
  unfold handle_client. cbn [keep_alive_loop]. unfold bind at 1 2.
  unfold handle_request. unfold bind at 1. rewrite Hread.
  destruct Hbad as [-> | (requestData & -> & ->)];
    cbv beta iota delta [ret emit]; cbn [trace inbox];
    rewrite T, <- List.app_assoc; reflexivity.
Qed.

Lemma session_without_request_witness :
  let routes : gmap string (RequestInfo.t -> Response.t) := ∅ in
  let garbage := "GET / HTTP/1.1" +:+ CRLF +:+ "Host: a" +:+ CRLF in
  handle_client (fun _ => Some "x") routes (mkWorld [garbage; "more"] [])
  = (Ok tt,
     mkWorld ["more"]
       [EvRead ServerConstants.MAX_READ_BUFFER (Some garbage); EvClose]).
Proof.
  intros routes garbage.
  apply (session_without_request (fun _ => Some "x") routes
           (mkWorld [garbage; "more"] []) (mkWorld ["more"] [EvRead 30000 (Some garbage)])
           (Some garbage)).
  - vm_compute. reflexivity.
  - right. exists garbage. split; reflexivity.
Defined.

(** X16.  The body of a request is the first Content-Length bytes of what
    follows the delimiter, however the peer's bytes are cut into packets:
    the loop takes from the socket exactly the bytes that are missing and
    leaves the following ones queued for the next request. *)
Theorem request_body_reassembled
    (requestData : string) (body_pos : nat) (req : RequestInfo.t) (w : World)
    (content_length : N) :
  stoull (extract_header_value requestData body_pos ServerConstants.HDR_CONTENT_LEN)
  = Ok content_length ->
  content_length <= MAX_PAYLOAD_SIZE ->
  (body_pos + 4 <= String.length requestData)%nat ->
  Forall (fun pkt => pkt <> EmptyString) (inbox w) ->
  let received := Str.drop (body_pos + 4) requestData in
  let missing := (N.to_nat content_length - String.length received)%nat in
  exists w',
    read_payload requestData body_pos req w
    = (Ok (RequestInfo.set_body
             (Str.take (N.to_nat content_length) (received +:+ stream (inbox w))) req,
           Response.default, false,
           requestData +:+ Str.take missing (stream (inbox w))),
       w') /\
    stream (inbox w') = Str.drop missing (stream (inbox w)).
Proof.
  intros Hlen Hmax Hpos Hne received missing.
  unfold read_payload.
  destruct (String.eqb_spec
              (extract_header_value requestData body_pos ServerConstants.HDR_CONTENT_LEN)
              EmptyString) as [E|_].
  { rewrite E in Hlen. discriminate. }
  unfold bind at 1, lift. rewrite Hlen.
  apply N.ltb_ge in Hmax as Hmax'. rewrite Hmax'.
  set (cur := Str.len requestData - (N.of_nat body_pos + 4)).
  assert (N.to_nat (content_length - cur) = missing) as Hmissing.
  { unfold missing, received, cur, Str.len. rewrite length_drop. lia. }
  destruct (read_body_stream (N.to_nat (content_length - cur)) content_length
              requestData cur w Hne (Nat.le_refl _)) as (w' & Hrun & _ & Hstream).
  rewrite Hmissing in Hrun, Hstream.
  exists w'. split; [|exact Hstream].
  unfold bind at 1. rewrite Hmissing, Hrun.
  unfold bind, lift, substr.
  set (data := requestData +:+ Str.take missing (stream (inbox w))).
  assert ((Str.len data <? N.of_nat body_pos + 4) = false) as ->.
  { apply N.ltb_ge. unfold data, Str.len. rewrite length_app. lia. }
  cbv beta iota delta [ret]. f_equal. f_equal. f_equal. f_equal. f_equal.
  replace (N.to_nat (N.of_nat body_pos + 4)) with (body_pos + 4)%nat by lia.
  replace (N.to_nat (N.min content_length (Str.len data - (N.of_nat body_pos + 4))))
    with (Nat.min (N.to_nat content_length)
                  (String.length (Str.drop (body_pos + 4) data)))
    by (rewrite length_drop; unfold Str.len; lia).
  rewrite take_min. unfold data. rewrite drop_app_ge by exact Hpos.
  fold received. unfold missing. now rewrite take_app_take.
Qed.

Lemma request_body_reassembled_witness :
  let requestData :=
    "POST /chat HTTP/1.1" +:+ CRLF +:+ "Content-Length: 10" +:+ CRLF +:+ CRLF +:+ "user" in
  let w := mkWorld ["=a"; "&m="; "hiGET / HTTP/1.1"] [] in
  exists w',
    read_payload requestData 39 (parse_url "/chat") w
    = (Ok (RequestInfo.set_body "user=a&m=h" (parse_url "/chat"),
           Response.default, false, requestData +:+ "=a&m=h"), w') /\
    stream (inbox w') = "iGET / HTTP/1.1".
Proof.
  intros requestData w.
  apply (request_body_reassembled requestData 39 (parse_url "/chat") w 10).
  - vm_compute. reflexivity.
  - vm_compute. discriminate.
  - vm_compute. lia.
  - repeat constructor; discriminate.
Defined.

(** X17.  The routing key is never empty: whatever the target, dispatch
    looks up a non-empty path, so a handler registered under the empty
    path can never be reached. *)
Theorem routing_key_nonempty (url : string) : routing_key url <> EmptyString.
Proof.
  unfold routing_key. generalize (RequestInfo.path (parse_url url)). intros path.
  unfold normalize_path.
  destruct (String.eqb_spec path EmptyString) as [->|Hne]; [discriminate|].
  cbn [orb].
  destruct (String.eqb path "/" || String.eqb path "public"
            || String.eqb path ServerConstants.PUBLIC_DIR) eqn:E; [discriminate|].
  destruct (_ && _) eqn:E2; [|exact Hne].
  apply andb_true_iff in E2 as [_ E2]. apply String.eqb_eq in E2.
  apply orb_false_iff in E as [_ E]. apply String.eqb_neq in E.
  intros Hdrop. apply E. rewrite <- (take_drop 7 path).
  change (String.length ServerConstants.PUBLIC_DIR) with 7%nat in *.
  now rewrite E2, Hdrop.
Qed.

(** X18.  The payload limit is inclusive and is applied before any body
    byte is read.  For a declared length [std::stoull] can convert: above
    10,485,760 the answer is the 413 response and request, buffer and
    socket are left as they were; up to the limit the loop returns, the
    buffer has grown by no more than the missing bytes and the body is no
    longer than declared. *)
Theorem payload_limit
    (requestData : string) (body_pos : nat) (req : RequestInfo.t) (w : World)
    (content_length : N) :
  stoull (extract_header_value requestData body_pos ServerConstants.HDR_CONTENT_LEN)
  = Ok content_length ->
  (body_pos + 4 <= String.length requestData)%nat ->
  exists req' res data w',
    read_payload requestData body_pos req w
    = (Ok (req', res, MAX_PAYLOAD_SIZE <? content_length, data), w') /\
    (MAX_PAYLOAD_SIZE < content_length ->
     Response.status_code res = 413%Z /\ req' = req /\ data = requestData /\ w' = w) /\
    (content_length <= MAX_PAYLOAD_SIZE ->
     res = Response.default /\
     Str.len (RequestInfo.body req') <= content_length /\
     Str.len data <= N.max (Str.len requestData) (N.of_nat body_pos + 4 + content_length)).
Proof.
  intros Hlen Hpos. unfold read_payload.
  destruct (String.eqb_spec
              (extract_header_value requestData body_pos ServerConstants.HDR_CONTENT_LEN)
              EmptyString) as [E|_].
  { rewrite E in Hlen. discriminate. }
  unfold bind at 1, lift. rewrite Hlen.
  destruct (N.ltb_spec MAX_PAYLOAD_SIZE content_length) as [Hbig|Hok].
  - eexists _, _, _, _. split; [reflexivity|]. split; [|lia]. intros _. now repeat split.
  - set (cur := Str.len requestData - (N.of_nat body_pos + 4)).
    destruct (read_body_bounds (N.to_nat (content_length - cur)) content_length
                requestData cur w) as (data & w' & Hrun & H1 & H2).
    unfold bind at 1. rewrite Hrun. unfold bind, lift, substr.
    assert ((Str.len data <? N.of_nat body_pos + 4) = false) as ->
      by (apply N.ltb_ge; unfold Str.len; lia).
    eexists _, _, _, _. split; [reflexivity|]. split; [lia|]. intros _.
    split; [reflexivity|]. split.
    + cbn [RequestInfo.body RequestInfo.set_body]. unfold Str.len at 1.
      pose proof (length_take_le
                    (N.to_nat (N.min content_length
                                     (Str.len data - (N.of_nat body_pos + 4))))
                    (Str.drop (N.to_nat (N.of_nat body_pos + 4)) data)). lia.
    + unfold cur, Str.len in *. lia.
Qed.

Lemma payload_limit_witness :
  let requestData :=
    "POST /x HTTP/1.1" +:+ CRLF +:+ "Content-Length: 10485761" +:+ CRLF +:+ CRLF in
  let w := mkWorld ["body"] [] in
  exists req' res data w',
    read_payload requestData 42 (parse_url "/x") w = (Ok (req', res, true, data), w') /\
    Response.status_code res = 413%Z /\ w' = w.
Proof.
  intros requestData w.
  destruct (payload_limit requestData 42 (parse_url "/x") w 10485761)
    as (req' & res & data & w' & H & Hbig & _).
  - vm_compute. reflexivity.
  - vm_compute. lia.
  - destruct Hbig as (Hs & _ & _ & Hw); [vm_compute; reflexivity|].
    exists req', res, data, w'. split; [exact H | split; assumption].
Defined.



(** X20.  A Content-Length value that [std::stoull] cannot convert ends
    the pass in the exception it throws, after the one read and before
    anything is sent. *)
Theorem unreadable_length_throws
    (fs : string -> option string) (routes : gmap string (RequestInfo.t -> Response.t))
    (w w1 : World) (requestData : string) (body_pos : nat) (e : exn) :
  sock_read ServerConstants.MAX_READ_BUFFER w = (Ok (Some requestData), w1) ->
  Str.find ServerConstants.HTTP_DELIM requestData = Some body_pos ->
  extract_header_value requestData body_pos ServerConstants.HDR_CONTENT_LEN
    <> EmptyString ->
  stoull (extract_header_value requestData body_pos ServerConstants.HDR_CONTENT_LEN)
  = Throw e ->
  handle_request fs routes w = (Throw e, w1) /\
  trace w1 = trace w ++ [EvRead ServerConstants.MAX_READ_BUFFER (Some requestData)].
Proof.
  intros Hread Hfind Hne Hthrow. split; [|now apply sock_read_trace].
  destruct (parse_request_line_ok requestData) as [req0 Hline].
  unfold handle_request. unfold bind at 1. rewrite Hread, Hfind.
  unfold bind at 1, lift. rewrite Hline.
  unfold bind at 1, serve. unfold bind at 1, read_payload.
  apply String.eqb_neq in Hne. rewrite Hne.
  unfold bind at 1, lift. rewrite Hthrow. reflexivity.
Qed.

Lemma unreadable_length_throws_witness :
  let request :=
    "POST /x HTTP/1.1" +:+ CRLF +:+ "Content-Length: ten" +:+ CRLF +:+ CRLF in
  let routes : gmap string (RequestInfo.t -> Response.t) := ∅ in
  handle_request (fun _ => None) routes (mkWorld [request] [])
  = (Throw invalid_argument,
     mkWorld [] [EvRead ServerConstants.MAX_READ_BUFFER (Some request)]).
Proof.
  intros request routes.
  apply (unreadable_length_throws (fun _ => None) routes (mkWorld [request] [])
           (mkWorld [] [EvRead ServerConstants.MAX_READ_BUFFER (Some request)])
           request 37 invalid_argument).
  - vm_compute. reflexivity.
  - vm_compute. reflexivity.
  - vm_compute. discriminate.
  - vm_compute. reflexivity.
Defined.

Section Exchanges.

Variable fs : string -> option string.
Variable routes : gmap string (RequestInfo.t -> Response.t).

Lemma keep_alive_loop_responses fuel w r w' :
  keep_alive_loop fs routes fuel w = (r, w') ->
  exists evs, trace w' = trace w ++ evs /\ (length (sent evs) <= pending w)%nat.
Proof.
  revert w; induction fuel as [|fuel IH]; intros w; cbn [keep_alive_loop].
  { intros [= <- <-]. exists []. rewrite app_nil_r. split; [reflexivity | cbn; lia]. }
  unfold bind.
  destruct (handle_request fs routes w) as [[[[req res]|]|e] w1] eqn:E.
  - pose proof (handle_request_consumes _ _ _ _ _ E) as Hlt.
    apply handle_request_shape in E as (evs1 & T1 & res0 & evs0 & _ & S0 & ->).
    assert (length (sent (evs0 ++ [EvSend (Response.to_string res);
                                   EvLog (RequestInfo.method req) (RequestInfo.path req)
                                         (Response.status_code res)
                                         (Response.status_text res)])) = 1%nat) as Hone
      by (rewrite sent_app, S0; reflexivity).
    destruct (Response.keep_alive res).
    + intros H. destruct (IH _ H) as (evs2 & T2 & Hle).
      eexists. split; [rewrite T2, T1, <- List.app_assoc; reflexivity|].
      rewrite sent_app, List.length_app, Hone. lia.
    + intros [= <- <-]. eexists. split; [exact T1|]. rewrite Hone. lia.
  - apply handle_request_shape in E as (evs1 & T1 & S1).
    intros [= <- <-]. exists evs1. split; [exact T1|]. rewrite S1. cbn. lia.
  - apply handle_request_shape in E as (evs1 & T1 & S1).
    intros [= <- <-]. exists evs1. split; [exact T1|]. rewrite S1. cbn. lia.
Qed.

End Exchanges.

(** X21.  A session sends no more responses than the socket held bytes
    and packets when it began: every response answers input that was
    consumed for it. *)
Theorem responses_bounded_by_input
    (fs : string -> option string) (routes : gmap string (RequestInfo.t -> Response.t))
    (w w' : World) (r : Result unit) :
  handle_client fs routes w = (r, w') ->
  exists evs, trace w' = trace w ++ evs /\ (length (sent evs) <= pending w)%nat.
Proof.
  unfold handle_client, bind.
  destruct (keep_alive_loop fs routes _ w) as [[[]|e] w1] eqn:E;
    apply keep_alive_loop_responses in E as (evs & T & Hle).
  - intros [= <- <-]. exists (evs ++ [EvClose]). cbn [trace].
    split; [now rewrite T, <- List.app_assoc|].
    rewrite sent_app. cbn [sent]. rewrite app_nil_r. exact Hle.
  - intros [= <- <-]. exists evs. now split.
Qed.

Lemma responses_bounded_by_input_witness :
  let request := "GET /a HTTP/1.1" +:+ CRLF +:+ CRLF in
  let routes : gmap string (RequestInfo.t -> Response.t) := ∅ in
  let w := mkWorld [request; request] [] in
  exists r w', handle_client (fun _ => Some "a") routes w = (r, w') /\
  exists evs, trace w' = trace w ++ evs /\ (length (sent evs) <= pending w)%nat.
Proof.
  intros request routes w. eexists _, _. split; [vm_compute; reflexivity|].
  eapply (responses_bounded_by_input (fun _ => Some "a") routes w).
  vm_compute. reflexivity.
Defined.

Section Greeting.

Variable fs : string -> option string.
Variable routes : gmap string (RequestInfo.t -> Response.t).

Lemma tolower_colon c : Ascii.eqb (tolower c) ":" = Ascii.eqb c ":".
Proof. destruct c as [[|] [|] [|] [|] [|] [|] [|] [|]]; reflexivity. Qed.

Lemma find_char_lowercase_colon s :
  Str.find_char ":" (lowercase s) = Str.find_char ":" s.
Proof.
  induction s as [|c s IH]; [reflexivity|].
  cbn [lowercase Str.find_char]. now rewrite tolower_colon, IH.
Qed.

Lemma find_char_None_take c n s :
  Str.find_char c s = None -> Str.find_char c (Str.take n s) = None.
Proof.
  intros H. rewrite <- (take_drop n s) in H. now apply find_char_None_app in H.
Qed.

Lemma find_char_app_None c s t :
  Str.find_char c s = None -> Str.find_char c t = None ->
  Str.find_char c (s +:+ t) = None.
Proof.
  intros Hs Ht. induction s as [|d s IH]; [exact Ht|].
  cbn [String.append Str.find_char] in *. destruct (Ascii.eqb d c); [discriminate|].
  destruct (Str.find_char c s); [discriminate|]. now rewrite IH.
Qed.

(** A header name ends in a colon: data without any colon has no header. *)
Lemma header_absent full_data max_pos target :
  Str.find_char ":" target <> None ->
  Str.find_char ":" full_data = None ->
  extract_header_value full_data max_pos target = EmptyString.
Proof.
  intros Htarget Hdata. unfold extract_header_value.
  destruct (Str.search ci_char_compare target (Str.take max_pos full_data))
    as [it|] eqn:E; [|reflexivity].
  exfalso. apply Htarget.
  apply search_Some in E as (Hm & _ & _).
  apply matches_at_ci_iff in Hm as (name & post & Hd & Hl).
  apply (find_char_None_take _ max_pos) in Hdata.
  apply (find_char_None_drop _ it) in Hdata. rewrite Hd in Hdata.
  apply find_char_None_app in Hdata as [Hname _].
  now rewrite <- find_char_lowercase_colon, <- Hl, find_char_lowercase_colon.
Qed.

Lemma parse_url_greet name :
  Str.find_char "&" name = None ->
  parse_url ("/greet?name=" +:+ name)
  = RequestInfo.mk "greet" ("name=" +:+ name) (<["name" := name]> ∅)
      EmptyString EmptyString true.
Proof.
  intros Hamp. unfold parse_url.
  change ("/greet?name=" +:+ name) with ("/greet" +:+ String "?" ("name=" +:+ name)).
  rewrite find_char_app, take_app, drop_past_char by reflexivity.
  change (String.eqb "/greet" "/") with false. cbv iota.
  change (Ascii.eqb "/" "/") with true. cbv iota.
  rewrite getlines_single.
  - cbn [fold_left].
    change ("name=" +:+ name) with ("name" +:+ String "=" name).
    now rewrite store_pair_text.
  - apply (find_char_app_None _ "name="); [reflexivity | exact Hamp].
  - discriminate.
Qed.

End Greeting.

(** X22.  With [handle_greet] registered under "greet", the request
    [GET /greet?name=<name>] without header lines is answered with
    200 and the greeting for that name, written as it came; the session
    reads once, opens no file and keeps the connection. *)
Theorem greet_answers_by_name
    (fs : string -> option string) (routes : gmap string (RequestInfo.t -> Response.t))
    (w w1 : World) (name : string) :
  let request := "GET /greet?name=" +:+ name +:+ " HTTP/1.1" +:+ CRLF +:+ CRLF in
  routes !! "greet" = Some handle_greet ->
  Str.find_char " " name = None -> Str.find_char "&" name = None ->
  Str.find_char ":" name = None ->
  sock_read ServerConstants.MAX_READ_BUFFER w = (Ok (Some request), w1) ->
  exists req res,
    handle_request fs routes w
    = (Ok (Some (req, res)),
       mkWorld (inbox w1)
         (trace w ++ [EvRead ServerConstants.MAX_READ_BUFFER (Some request);
                      EvSend (Response.to_string res);
                      EvLog "GET" "greet" 200 "OK"])) /\
    res = Response.mk 200 "OK" "text/html" ("<h1>Hello, " +:+ name +:+ "!</h1>") [] true.
Proof.
  intros request Hroute Hsp Hamp Hcolon Hread.
  assert (Str.find_char ":" request = None) as Hfree.
  { unfold request. apply (find_char_app_None _ "GET /greet?name="); [reflexivity|].
    apply find_char_app_None; [exact Hcolon | reflexivity]. }
  assert (exists body_pos, Str.find ServerConstants.HTTP_DELIM request = Some body_pos)
    as [body_pos Hfind].
  { assert (Str.contains ServerConstants.HTTP_DELIM request = true) as H.
    { apply contains_iff. exists ("GET /greet?name=" +:+ name +:+ " HTTP/1.1"), EmptyString.
      unfold request, ServerConstants.HTTP_DELIM.
      now rewrite app_empty_r, !app_assoc. }
    unfold Str.contains in H. destruct (Str.find _ request); [eauto | discriminate]. }
  assert (parse_request_line request
          = Ok (RequestInfo.set_method "GET" (parse_url ("/greet?name=" +:+ name))))
    as Hline.
  { assert (Str.len request <= SIZE_MAX) as Hlen.
    { pose proof (sock_read_got_le _ _ _ _ Hread) as Hle.
      unfold Str.len, SIZE_MAX, ServerConstants.MAX_READ_BUFFER in *. lia. }
    revert Hlen.
    change request
      with ("GET" +:+ String " " (("/greet?name=" +:+ name)
                                    +:+ String " " ("HTTP/1.1" +:+ CRLF +:+ CRLF))).
    intros Hlen. apply parse_request_line_split.
    - reflexivity.
    - apply (find_char_app_None _ "/greet?name="); [reflexivity | exact Hsp].
    - exact Hlen. }
  rewrite parse_url_greet in Hline by exact Hamp.
  eexists _, _. split; [|reflexivity].
  unfold handle_request. unfold bind at 1. rewrite Hread, Hfind.
  unfold bind at 1, lift. rewrite Hline.
  unfold connection_header. rewrite header_absent by (exact Hfree || discriminate).
  change (Str.contains "close" EmptyString || Str.contains "Close" EmptyString)
    with false. cbv iota.
  set (req0 := RequestInfo.set_method "GET" _).
  assert (read_payload request body_pos req0 w1
          = (Ok (req0, Response.default, false, request), w1)) as Hpayload.
  { unfold read_payload. now rewrite header_absent by (exact Hfree || discriminate). }
  assert (dispatch fs routes
            (RequestInfo.set_path (normalize_path (RequestInfo.path req0)) req0) w1
          = (Ok (handle_greet req0), w1)) as Hdispatch.
  { unfold dispatch.
    change (RequestInfo.path (RequestInfo.set_path _ req0)) with "greet".
    now rewrite Hroute. }
  unfold bind at 1, serve. unfold bind at 1. rewrite Hpayload.
  cbv beta iota delta [negb]. unfold bind at 1.
  change (parse_body request body_pos req0 w1) with (Ok req0, w1). cbv beta iota.
  unfold bind at 1. rewrite Hdispatch.
  unfold ret at 1. cbv beta iota.
  unfold respond, bind, emit, ret. cbn [trace inbox].
  rewrite (sock_read_trace _ _ _ _ Hread), <- !List.app_assoc.
  unfold handle_greet, req0. cbn [RequestInfo.params RequestInfo.set_method].
  rewrite lookup_insert_eq. rewrite <- app_assoc. reflexivity.
Qed.

Lemma greet_answers_by_name_witness :
  let routes : gmap string (RequestInfo.t -> Response.t) := {["greet" := handle_greet]} in
  let request := "GET /greet?name=Ada HTTP/1.1" +:+ CRLF +:+ CRLF in
  exists req res w',
    handle_request (fun _ => None) routes (mkWorld [request] []) = (Ok (Some (req, res)), w') /\
    Response.body res = "<h1>Hello, Ada!</h1>".
Proof.
  intros routes request.
  destruct (greet_answers_by_name (fun _ => None) routes (mkWorld [request] [])
              (mkWorld [] [EvRead ServerConstants.MAX_READ_BUFFER (Some request)])
              "Ada") as (req & res & H & ->).
  - vm_compute. reflexivity.
  - reflexivity.
  - reflexivity.
  - reflexivity.
  - vm_compute. reflexivity.
  - eexists _, _, _. split; [exact H | reflexivity].
Defined.

(** * Start-up: configuration and database *)

Section Configuration.

Lemma numeral_no_newline d : Str.find_char LF (NilEmpty.string_of_uint d) = None.
Proof.
  induction d as [|d IH|d IH|d IH|d IH|d IH|d IH|d IH|d IH|d IH|d IH];
    [reflexivity|..];
    cbn [NilEmpty.string_of_uint Str.find_char]; rewrite IH; reflexivity.
Qed.

Lemma put_int_no_newline z : Str.find_char LF (Response.put_int z) = None.
Proof.
  unfold Response.put_int.
  destruct z as [|p|p]; [reflexivity|..]; cbn [Z.to_int NilZero.string_of_int];
    unfold NilZero.string_of_uint.
  - destruct (Pos.to_uint p) eqn:E; [reflexivity|..]; rewrite <- E;
      apply numeral_no_newline.
  - cbn [Str.find_char]. change (Ascii.eqb "-" LF) with false. cbv iota.
    assert (Str.find_char LF
              match Pos.to_uint p with
              | Decimal.Nil => "0"
              | _ => NilEmpty.string_of_uint (Pos.to_uint p)
              end = None) as ->; [|reflexivity].
    destruct (Pos.to_uint p) eqn:E; [reflexivity|..]; rewrite <- E;
      apply numeral_no_newline.
Qed.

Lemma stoi_numeral d :
  d <> Decimal.Nil ->
  let v := Z.of_N (N.of_uint d) in
  stoi (NilEmpty.string_of_uint d)
  = (if (v <? INT_MIN)%Z || (INT_MAX <? v)%Z then Throw out_of_range else Ok v) /\
  stoi (String "-" (NilEmpty.string_of_uint d))
  = (if (- v <? INT_MIN)%Z || (INT_MAX <? - v)%Z then Throw out_of_range else Ok (- v)%Z).
Proof.
  intros Hd v. destruct (numeral_head d Hd) as (c & r & Hs & H1 & H2 & H3 & H4).
  pose proof (accumulate_uint d EmptyString) as Hacc.
  rewrite app_empty_r in Hacc. cbn [accumulate] in Hacc.
  unfold stoi. rewrite Hs in *. split.
  - cbn [skip_space]. rewrite H1. unfold strip_sign. rewrite H2, H3.
    cbn [starts_with_digit]. now rewrite H4, Hacc.
  - cbn [skip_space]. change (isspace "-") with false. cbv iota.
    unfold strip_sign. change (Ascii.eqb "-" "-") with true. cbv iota.
    cbn [starts_with_digit]. now rewrite H4, Hacc.
Qed.

Lemma stoi_put_int z :
  (INT_MIN <= z <= INT_MAX)%Z -> stoi (Response.put_int z) = Ok z.
Proof.
  intros Hz. unfold Response.put_int.
  destruct z as [|p|p]; [reflexivity|..]; cbn [Z.to_int NilZero.string_of_int];
    unfold NilZero.string_of_uint;
    pose proof (DecimalPos.Unsigned.to_uint_nonnil p) as Hd;
    destruct (stoi_numeral (Pos.to_uint p) Hd) as [Hpos Hneg];
    unfold N.of_uint in Hpos, Hneg; rewrite DecimalPos.Unsigned.of_to in Hpos, Hneg;
    change (Z.of_N (N.pos p)) with (Z.pos p) in Hpos, Hneg;
    change (- Z.pos p)%Z with (Z.neg p) in Hneg.
  - assert (((Z.pos p <? INT_MIN)%Z || (INT_MAX <? Z.pos p)%Z) = false) as E.
    { apply orb_false_iff. split; apply Z.ltb_ge; lia. }
    rewrite E in Hpos. destruct (Pos.to_uint p); [contradiction|..]; exact Hpos.
  - assert (((Z.neg p <? INT_MIN)%Z || (INT_MAX <? Z.neg p)%Z) = false) as E.
    { apply orb_false_iff. split; apply Z.ltb_ge; lia. }
    rewrite E in Hneg. destruct (Pos.to_uint p); [contradiction|..]; exact Hneg.
Qed.

Lemma config_line_port config val :
  config_line config ("port=" +:+ val)
  = rmap (fun p => ServerConfig.mk p (ServerConfig.threads config)) (stoi val).
Proof.
  unfold config_line. change ("port=" +:+ val) with ("port" +:+ String "=" val).
  rewrite find_char_app, take_app, drop_past_char by reflexivity.
  change (String.eqb "port" "port") with true.
  change (String.eqb "port" "threads") with false.
  now destruct (stoi val).
Qed.

Lemma config_line_threads config val :
  config_line config ("threads=" +:+ val)
  = rmap (fun t => ServerConfig.mk (ServerConfig.port config) t) (stoi val).
Proof.
  unfold config_line. change ("threads=" +:+ val) with ("threads" +:+ String "=" val).
  rewrite find_char_app, take_app, drop_past_char by reflexivity.
  change (String.eqb "threads" "port") with false.
  change (String.eqb "threads" "threads") with true.
  reflexivity.
Qed.

Lemma config_line_other config line :
  (forall val, line <> "port=" +:+ val) -> (forall val, line <> "threads=" +:+ val) ->
  config_line config line = Ok config.
Proof.
  intros Hport Hthreads. unfold config_line.
  destruct (Str.find_char "=" line) as [delim|] eqn:E; [|reflexivity].
  apply find_char_Some in E as (Hline & _ & _).
  destruct (String.eqb_spec (Str.take delim line) "port") as [Hk|_].
  { exfalso. apply (Hport (Str.drop (S delim) line)). now rewrite Hline at 1; rewrite Hk. }
  cbn [rbind].
  destruct (String.eqb_spec (Str.take delim line) "threads") as [Hk|_]; [|reflexivity].
  exfalso. apply (Hthreads (Str.drop (S delim) line)). now rewrite Hline at 1; rewrite Hk.
Qed.

End Configuration.

(** X23.  A configuration file that gives the port and the thread count
    as decimal numbers, one [key=value] per line, is read back as those
    two numbers, for every value of an [int]. *)
Theorem load_config_reads_settings (port threads : Z) :
  (INT_MIN <= port <= INT_MAX)%Z -> (INT_MIN <= threads <= INT_MAX)%Z ->
  load_config (Some ("port=" +:+ Response.put_int port +:+ String LF
                     ("threads=" +:+ Response.put_int threads +:+ String LF EmptyString)))
  = Ok (ServerConfig.mk port threads).
Proof.
  intros Hport Hthreads. unfold load_config.
  change ("port=" +:+ Response.put_int port +:+ String LF
          ("threads=" +:+ Response.put_int threads +:+ String LF EmptyString))
    with (("port=" +:+ Response.put_int port) +:+ String LF
          (("threads=" +:+ Response.put_int threads) +:+ String LF EmptyString)).
  rewrite !getlines_delim
    by (apply find_char_app_None; [reflexivity | apply put_int_no_newline]).
  cbn [getlines config_lines].
  rewrite config_line_port, stoi_put_int by exact Hport. cbn [rmap rbind].
  rewrite config_line_threads, stoi_put_int by exact Hthreads. reflexivity.
Qed.

Lemma load_config_reads_settings_witness :
  load_config (Some ("port=" +:+ Response.put_int 9090 +:+ String LF
                     ("threads=" +:+ Response.put_int 8 +:+ String LF EmptyString)))
  = Ok (ServerConfig.mk 9090 8).
Proof. apply load_config_reads_settings; unfold INT_MIN, INT_MAX; lia. Defined.

(** X24.  Only lines that begin with exactly [port=] or [threads=] count:
    a file none of whose lines does leaves both defaults in place and
    never throws, whatever else it holds (a line [port = 9090], with
    spaces around the sign, among them). *)
Theorem load_config_ignores_other_lines (content : string) :
  Forall (fun line => (forall val, line <> "port=" +:+ val) /\
                      (forall val, line <> "threads=" +:+ val))
         (getlines LF content) ->
  load_config (Some content) = Ok ServerConfig.default.
Proof.
  unfold load_config. generalize ServerConfig.default as config.
  generalize (getlines LF content) as lines.
  intros lines config H. induction H as [|line lines [Hport Hthreads] _ IH];
    [reflexivity|].
  cbn [config_lines]. now rewrite config_line_other.
Qed.

Lemma load_config_ignores_other_lines_witness :
  load_config (Some ("# settings" +:+ String LF ("port = 9090" +:+ String LF EmptyString)))
  = Ok ServerConfig.default.
Proof.
  apply load_config_ignores_other_lines.
  repeat constructor; intros val; discriminate.
Defined.

Section Database.

Lemma database_line_ok chat_history line :
  exists more, (length more <= 1)%nat /\
    database_line chat_history line = Ok (chat_history ++ more).
Proof.
  unfold database_line.
  set (d1 := find_char_from "|" line 0).
  set (d2 := find_char_from "|" line (size_add d1 1)).
  destruct (negb (d1 =? npos) && negb (d2 =? npos)) eqn:E.
  2:{ exists []. rewrite app_nil_r. split; [cbn; lia | reflexivity]. }
  apply andb_true_iff in E as [E1 E2].
  apply negb_true_iff, N.eqb_neq in E1, E2.
  assert ((Str.len line <? 0) = false) as H0 by (apply N.ltb_ge; lia).
  assert (size_add d1 1 <= Str.len line) as Hd1.
  { unfold d1 in *. rewrite find_char_from_start in *.
    destruct (Str.find_char "|" line) as [i|] eqn:F; [|contradiction].
    apply find_char_Some in F as (_ & _ & Hi).
    unfold size_add. etransitivity; [apply N.Div0.mod_le|]. unfold Str.len. lia. }
  assert (size_add d2 1 <= Str.len line) as Hd2.
  { unfold d2, find_char_from in *.
    destruct (Str.len line <? size_add d1 1); [contradiction|].
    destruct (Str.find_char "|" (Str.drop (N.to_nat (size_add d1 1)) line))
      as [j|] eqn:F; [|contradiction].
    apply find_char_Some in F as (_ & _ & Hj). rewrite length_drop in Hj.
    unfold size_add at 1. etransitivity; [apply N.Div0.mod_le|]. unfold Str.len in *. lia. }
  unfold substr. rewrite H0.
  apply N.ltb_ge in Hd1, Hd2. rewrite Hd1, Hd2. cbn [rbind].
  eexists [_]. split; [cbn; lia | reflexivity].
Qed.

Lemma database_lines_ok lines chat_history :
  exists more, database_lines chat_history lines = Ok (chat_history ++ more).
Proof.
  revert chat_history; induction lines as [|line lines IH]; intros chat_history.
  - exists []. now rewrite app_nil_r.
  - cbn [database_lines].
    destruct (database_line_ok chat_history line) as (m1 & _ & ->). cbn [rbind].
    destruct (IH (chat_history ++ m1)) as (m2 & ->).
    exists (m1 ++ m2). now rewrite List.app_assoc.
Qed.

Lemma database_lines_app l1 l2 chat_history :
  database_lines chat_history (l1 ++ l2)
  = rbind (database_lines chat_history l1) (fun h => database_lines h l2).
Proof.
  revert chat_history; induction l1 as [|line l1 IH]; intros chat_history; [reflexivity|].
  cbn [database_lines app].
  destruct (database_line chat_history line); cbn [rbind]; [apply IH | reflexivity].
Qed.

Lemma getlines_nonempty d c s : getlines d (String c s) <> [].
Proof.
  cbn [getlines]. destruct (Ascii.eqb c d); [discriminate|].
  destruct (getlines d s); discriminate.
Qed.

(** Lines are read one by one: behind a delimiter the rest is split on
    its own. *)
Lemma getlines_app d s t :
  getlines d ((s +:+ String d EmptyString) +:+ t)
  = getlines d (s +:+ String d EmptyString) ++ getlines d t.
Proof.
  induction s as [|c s IH]; cbn [String.append getlines].
  - rewrite Ascii.eqb_refl. reflexivity.
  - destruct (Ascii.eqb c d); [now rewrite IH|].
    rewrite IH.
    destruct (getlines d (s +:+ String d EmptyString)) as [|seg rest] eqn:E;
      [|reflexivity].
    exfalso. destruct s; cbn [String.append] in E; now apply getlines_nonempty in E.
Qed.

Lemma database_line_record chat_history user timestamp msg :
  Str.find_char "|" user = None -> Str.find_char "|" timestamp = None ->
  Str.len (user +:+ String "|" (timestamp +:+ String "|" msg)) <= SIZE_MAX ->
  database_line chat_history (user +:+ String "|" (timestamp +:+ String "|" msg))
  = Ok (chat_history ++ [Message.mk user msg timestamp]).
Proof.
  intros Hu Ht Hlen. set (s := user +:+ String "|" (timestamp +:+ String "|" msg)) in *.
  assert (Str.len s = N.of_nat (String.length user) + 1
                      + N.of_nat (String.length timestamp) + 1
                      + N.of_nat (String.length msg)) as Hs.
  { unfold Str.len, s. rewrite length_app. cbn [String.length].
    rewrite length_app. cbn [String.length]. lia. }
  set (lu := N.of_nat (String.length user)) in *.
  set (lt := N.of_nat (String.length timestamp)) in *.
  assert (find_char_from "|" s 0 = lu) as Hfirst.
  { rewrite find_char_from_start. unfold s. now rewrite find_char_app. }
  unfold database_line. rewrite Hfirst.
  rewrite (size_add_small lu 1) by lia.
  assert (find_char_from "|" s (lu + 1) = lu + 1 + lt) as ->.
  { unfold find_char_from.
    assert ((Str.len s <? lu + 1) = false) as -> by (apply N.ltb_ge; lia).
    replace (N.to_nat (lu + 1)) with (S (String.length user)) by (unfold lu; lia).
    unfold s. rewrite drop_past_char, find_char_app by exact Ht. reflexivity. }
  assert ((lu =? npos) = false) as -> by (apply N.eqb_neq; unfold npos; lia).
  assert ((lu + 1 + lt =? npos) = false) as -> by (apply N.eqb_neq; unfold npos; lia).
  cbn [negb andb].
  rewrite (size_sub_small (lu + 1 + lt) lu) by lia.
  rewrite (size_sub_small (lu + 1 + lt - lu) 1) by lia.
  rewrite (size_add_small (lu + 1 + lt) 1) by lia.
  unfold substr.
  assert ((Str.len s <? 0) = false) as -> by (apply N.ltb_ge; lia).
  assert ((Str.len s <? lu + 1) = false) as -> by (apply N.ltb_ge; lia).
  assert ((Str.len s <? lu + 1 + lt + 1) = false) as -> by (apply N.ltb_ge; lia).
  cbn [rbind].
  replace (N.to_nat (N.min lu (Str.len s - 0))) with (String.length user)
    by (unfold lu; lia).
  replace (N.to_nat (N.min (lu + 1 + lt - lu - 1) (Str.len s - (lu + 1))))
    with (String.length timestamp) by (unfold lt; lia).
  replace (N.to_nat (N.min npos (Str.len s - (lu + 1 + lt + 1))))
    with (String.length msg) by (unfold npos; lia).
  replace (N.to_nat (lu + 1)) with (S (String.length user)) by (unfold lu; lia).
  replace (N.to_nat (lu + 1 + lt + 1))
    with (S (String.length user) + S (String.length timestamp))%nat
    by (unfold lu, lt; lia).
  change (Str.drop (N.to_nat 0) s) with s.
  rewrite <- drop_drop.
  unfold s. rewrite take_app, !drop_past_char, take_app, take_all by lia.
  reflexivity.
Qed.

End Database.

(** X25.  Reading the database never throws, whatever the file holds:
    the three [substr] calls stay in range on every line, and the
    history already in memory is kept in front of what is read. *)
Theorem load_database_never_throws (file : option string) (chat_history : list Message.t) :
  exists more, load_database file chat_history = Ok (chat_history ++ more).
Proof.
  destruct file as [content|]; cbn [load_database].
  - apply database_lines_ok.
  - exists []. now rewrite app_nil_r.
Qed.

Section Persistence.

Lemma record_line user timestamp msg :
  ((((user +:+ "|") +:+ timestamp) +:+ "|") +:+ msg) +:+ String LF EmptyString
  = (user +:+ String "|" (timestamp +:+ String "|" msg)) +:+ String LF EmptyString.
Proof. rewrite !app_assoc. cbn [String.append]. rewrite !app_assoc. reflexivity. Qed.

Lemma record_no_newline user timestamp msg :
  Str.find_char LF user = None -> Str.find_char LF timestamp = None ->
  Str.find_char LF msg = None ->
  Str.find_char LF (user +:+ String "|" (timestamp +:+ String "|" msg)) = None.
Proof.
  intros Hu Ht Hm. apply find_char_app_None; [exact Hu|].
  apply (find_char_app_None _ "|"); [reflexivity|].
  apply find_char_app_None; [exact Ht|].
  apply (find_char_app_None _ "|"); [reflexivity | exact Hm].
Qed.

(** One more record behind a file of complete lines is one more message
    behind what the file held. *)
Lemma appended_record_reloads file chat_history user timestamp msg :
  Str.find_char "|" user = None -> Str.find_char LF user = None ->
  Str.find_char "|" timestamp = None -> Str.find_char LF timestamp = None ->
  Str.find_char LF msg = None ->
  Str.len (user +:+ String "|" (timestamp +:+ String "|" msg)) <= SIZE_MAX ->
  complete_lines file ->
  load_database file [] = Ok chat_history ->
  let file' :=
    append_file file
      (((((user +:+ "|") +:+ timestamp) +:+ "|") +:+ msg) +:+ String LF EmptyString) in
  complete_lines file' /\
  load_database file' [] = Ok (chat_history ++ [Message.mk user msg timestamp]).
Proof.
  intros Hu Hun Ht Htn Hmn Hlen Hfile Hload file'. unfold file'. rewrite record_line.
  set (line := user +:+ String "|" (timestamp +:+ String "|" msg)) in *.
  assert (Str.find_char LF line = None) as Hline by now apply record_no_newline.
  assert (getlines LF (line +:+ String LF EmptyString) = [line]) as Hsingle
    by now rewrite getlines_delim.
  assert (forall h, database_lines h [line] = Ok (h ++ [Message.mk user msg timestamp]))
    as Hrecord.
  { intros h. cbn [database_lines]. unfold line.
    rewrite database_line_record by assumption. reflexivity. }
  destruct file as [content|]; cbn [append_file load_database complete_lines] in *.
  - destruct Hfile as [->|[c ->]].
    + cbn [String.append]. split; [right; now exists line|].
      cbn [getlines database_lines] in Hload. injection Hload as <-.
      rewrite Hsingle. apply Hrecord.
    + split.
      * right. exists ((c +:+ String LF EmptyString) +:+ line). symmetry. apply app_assoc.
      * rewrite getlines_app, Hsingle, database_lines_app, Hload. cbn [rbind].
        apply Hrecord.
  - injection Hload as <-. split; [right; now exists line|].
    rewrite Hsingle. apply Hrecord.
Qed.

End Persistence.

(** X26.  What a POST to the board writes is what a restart reads.  If
    the database file holds complete lines and loads to the history in
    memory, then after a POST whose user name and time stamp have no bar
    and whose fields have no newline it still does: the answer is the
    303 redirect, and a non-empty message from a non-empty user is the
    one new entry of both. *)
Theorem posted_message_reloads
    (page_head page_tail now : string) (req : RequestInfo.t) (board : Board.t) :
  let user :=
    match RequestInfo.params req !! "user" with
    | Some user => user
    | None => "Anonymous"
    end in
  let msg :=
    match RequestInfo.params req !! "message" with
    | Some msg => msg
    | None => EmptyString
    end in
  let res := fst (handle_chat page_head page_tail now req board) in
  let board' := snd (handle_chat page_head page_tail now req board) in
  RequestInfo.method req = "POST" ->
  Str.find_char "|" user = None -> Str.find_char LF user = None ->
  Str.find_char "|" now = None -> Str.find_char LF now = None ->
  Str.find_char LF msg = None ->
  Str.len (user +:+ "|" +:+ now +:+ "|" +:+ msg) <= SIZE_MAX ->
  complete_lines (Board.database board) ->
  load_database (Board.database board) [] = Ok (Board.chat_history board) ->
  Response.status_code res = 303%Z /\
  Response.headers res = [("Location", "/chat")] /\
  complete_lines (Board.database board') /\
  load_database (Board.database board') [] = Ok (Board.chat_history board') /\
  Board.chat_history board'
  = (if negb (String.eqb msg EmptyString) && negb (String.eqb user EmptyString)
     then Board.chat_history board ++ [Message.mk user msg now]
     else Board.chat_history board).
Proof.
  intros user msg res board' Hmethod Hu Hun Ht Htn Hmn Hlen Hfile Hload.
  unfold res, board', handle_chat. rewrite Hmethod.
  change (String.eqb "POST" "POST") with true. cbv iota. cbn [fst snd].
  fold user msg.
  split; [reflexivity|]. split; [reflexivity|].
  destruct (negb (String.eqb msg EmptyString) && negb (String.eqb user EmptyString)).
  - cbn [Board.database Board.chat_history].
    destruct (appended_record_reloads (Board.database board) (Board.chat_history board)
                user now msg Hu Hun Ht Htn Hmn Hlen Hfile Hload) as [H1 H2].
    repeat split; assumption.
  - repeat split; assumption.
Qed.

Lemma posted_message_reloads_witness :
  let req :=
    RequestInfo.mk "chat" EmptyString
      (<["user" := "Ada"]> (<["message" := "Hello | all"]> ∅)) "POST" EmptyString true in
  let board :=
    Board.mk [Message.mk "Bob" "Hi" "01/02/26 10:00"]
      (Some ("Bob|01/02/26 10:00|Hi" +:+ String LF EmptyString)) in
  let board' := snd (handle_chat EmptyString EmptyString "01/02/26 10:05" req board) in
  load_database (Board.database board') [] = Ok (Board.chat_history board') /\
  Board.chat_history board'
  = [Message.mk "Bob" "Hi" "01/02/26 10:00"; Message.mk "Ada" "Hello | all" "01/02/26 10:05"].
Proof.
  intros req board board'.
  destruct (posted_message_reloads EmptyString EmptyString "01/02/26 10:05" req board)
    as (_ & _ & _ & H1 & H2).
  - reflexivity.
  - vm_compute. reflexivity.
  - vm_compute. reflexivity.
  - vm_compute. reflexivity.
  - vm_compute. reflexivity.
  - vm_compute. reflexivity.
  - vm_compute. discriminate.
  - right. exists "Bob|01/02/26 10:00|Hi". reflexivity.
  - vm_compute. reflexivity.
  - split; [exact H1 | exact H2].
Defined.
